(** * ScraperAgent: a shallow embedding of the task loop and its dispatcher

    The development follows the TypeScript sources:
    - [tools.ts]  the dispatcher [callFunction] and its eight browser actions,
    - [utils.ts]  [waitForNetworkIdle],
    - [agent.ts]  the class [ScraperAgent] ([initialize], [cleanup], [doTask],
                  [setMaxAttempts], [overridePage]).

    Asynchronous code is sequential here: every [await] is a call that
    either returns or throws, and no other caller touches the agent while a
    method runs.  The browser library (Playwright) and the model's chat
    session are external; they are an interface ([Host]) whose operations
    may return or throw as they please.  JavaScript numbers that the agent
    counts with ([attempts], [maxAttempts]) are integers, and a string is the
    sequence of the bytes of its UTF-8 encoding. *)

From Stdlib Require Import ZArith List String Ascii Bool Lia.
From Equations Require Import Equations.
Import ListNotations.

Local Open Scope string_scope.
Local Open Scope Z_scope.

Set Warnings "-register-all".

(** ** JavaScript values *)

(** What [String(err)] yields for a thrown value: the only thing the
    sources ever do with a caught exception. *)
Definition exn := string.

Inductive value : Type :=
| VUndefined
| VNull
| VBool (b : bool)
| VNum (n : Z)
| VStr (s : string)
| VObj (fields : list (string * value)).

Fixpoint lookup_field (key : string) (fields : list (string * value)) : option value :=
  match fields with
  | [] => None
  | (k, v) :: rest => if String.eqb k key then Some v else lookup_field key rest
  end.

Inductive outcome (A : Type) : Type :=
| Ok (a : A)
| Throw (e : exn).
Arguments Ok {A} a.
Arguments Throw {A} e.

(** [v.key]: a TypeError on [undefined] and [null], [undefined] for an
    absent key and for a primitive. *)
Definition get_prop (v : value) (key : string) : outcome value :=
  match v with
  | VUndefined =>
      Throw ("TypeError: Cannot read properties of undefined (reading '" ++ key ++ "')")
  | VNull =>
      Throw ("TypeError: Cannot read properties of null (reading '" ++ key ++ "')")
  | VObj fields =>
      Ok (match lookup_field key fields with Some x => x | None => VUndefined end)
  | VBool _ | VNum _ | VStr _ => Ok VUndefined
  end.

Definition is_nullish (v : value) : bool :=
  match v with
  | VUndefined | VNull => true
  | _ => false
  end.

(** The [success] field of a result, when it is there and a boolean. *)
Definition success_flag (result : value) : option bool :=
  match result with
  | VObj fields =>
      match lookup_field "success" fields with
      | Some (VBool b) => Some b
      | _ => None
      end
  | _ => None
  end.

(** [xs.join(sep)], where an [undefined] element prints as the empty string. *)
Definition js_join (sep : string) (xs : list (option string)) : string :=
  String.concat sep (map (fun o => match o with Some s => s | None => "" end) xs).

(** The white space and the line terminators that [String.prototype.trim]
    removes, in UTF-8.  In one byte: TAB, LF, VT, FF, CR and SPACE. *)
Definition is_white_space (c : ascii) : bool :=
  let n := nat_of_ascii c in
  ((9 <=? n) && (n <=? 13))%nat || (n =? 32)%nat.

(** In two bytes: NO-BREAK SPACE, U+00A0 (C2 A0). *)
Definition is_white_space_2 (c1 c2 : ascii) : bool :=
  ((nat_of_ascii c1 =? 194) && (nat_of_ascii c2 =? 160))%nat.

(** In three bytes: U+1680 (E1 9A 80), U+2000 to U+200A (E2 80 80 to
    E2 80 8A), the separators U+2028 and U+2029 (E2 80 A8, E2 80 A9), U+202F
    (E2 80 AF), U+205F (E2 81 9F), U+3000 (E3 80 80) and the byte order mark
    U+FEFF (EF BB BF). *)
Definition is_white_space_3 (c1 c2 c3 : ascii) : bool :=
  let n1 := nat_of_ascii c1 in
  let n2 := nat_of_ascii c2 in
  let n3 := nat_of_ascii c3 in
  ((n1 =? 225) && (n2 =? 154) && (n3 =? 128)
   || (n1 =? 226) && (n2 =? 128)
      && ((128 <=? n3) && (n3 <=? 138) || (n3 =? 168) || (n3 =? 169) || (n3 =? 175))
   || (n1 =? 226) && (n2 =? 129) && (n3 =? 159)
   || (n1 =? 227) && (n2 =? 128) && (n3 =? 128)
   || (n1 =? 239) && (n2 =? 187) && (n3 =? 191))%nat.

(** [s.trim() === ""]: the string is made of white space only. *)
Fixpoint all_white_space (s : string) : bool :=
  match s with
  | EmptyString => true
  | String c1 rest1 =>
      if is_white_space c1 then all_white_space rest1
      else
        match rest1 with
        | EmptyString => false
        | String c2 rest2 =>
            if is_white_space_2 c1 c2 then all_white_space rest2
            else
              match rest2 with
              | EmptyString => false
              | String c3 rest3 =>
                  if is_white_space_3 c1 c2 c3 then all_white_space rest3 else false
              end
        end
  end.

(** The truth value of [text && text.trim()]. *)
Definition has_visible_text (text : option string) : bool :=
  match text with
  | None => false
  | Some t => negb (all_white_space t)
  end.

(** ** The state and exception monad

    A computation runs on a state and either returns or throws; what it did
    to the state before throwing stays done. *)

Definition M (S A : Type) : Type := S -> S * outcome A.

Definition ret {S A} (a : A) : M S A := fun s => (s, Ok a).

Definition throw {S A} (e : exn) : M S A := fun s => (s, Throw e).

Definition bind {S A B} (c : M S A) (k : A -> M S B) : M S B :=
  fun s =>
    match c s with
    | (s', Ok a) => k a s'
    | (s', Throw e) => (s', Throw e)
    end.

Definition try_catch {S A} (c : M S A) (handler : exn -> M S A) : M S A :=
  fun s =>
    match c s with
    | (s', Ok a) => (s', Ok a)
    | (s', Throw e) => handler e s'
    end.

Definition lift_outcome {S A} (o : outcome A) : M S A := fun s => (s, o).

Declare Scope js_scope.
Delimit Scope js_scope with js.
Notation "x <- c ;; k" := (bind c (fun x => k))
  (at level 61, c at next level, right associativity) : js_scope.
Notation "c ;; k" := (bind c (fun _ => k))
  (at level 61, right associativity) : js_scope.
Local Open Scope js_scope.

(** ** Replies of the model and messages to it *)

Record Part := { part_text : option string }.
Record Content := { content_parts : option (list Part) }.
Record Candidate := { candidate_content : option Content }.

(** [FunctionCall] of the SDK: [name?: string], [args?: Record<string, unknown>]. *)
Record FunctionCall := {
  call_name : option string;
  call_args : option (list (string * value))
}.

(** [GenerateContentResponse]: [functionCalls] and [text] are accessors of
    the SDK, read here as fields of the reply. *)
Record GenerateContentResponse := {
  candidates : option (list Candidate);
  functionCalls : option (list FunctionCall);
  text : option string
}.

Inductive message : Type :=
| TextMessage (msg : string)
| FunctionResponseMessage (name : string) (response : value).

(** ** The external world: browser and chat session *)

Class Host (W Page Browser : Type) : Type := {
  chromium_launch : M W Browser;
  browser_newPage : Browser -> M W Page;
  browser_close : Browser -> M W unit;
  page_goto : Page -> value -> M W unit;
  page_waitForLoadState : Page -> string -> Z -> M W unit;
  page_waitForTimeout : Page -> Z -> M W unit;
  page_content : Page -> M W string;
  page_click : Page -> value -> Z -> M W unit;
  page_locator_fill : Page -> value -> value -> M W unit;
  page_locator_isVisible : Page -> value -> Z -> M W bool;
  page_url : Page -> M W string;
  page_screenshot : Page -> value -> M W unit;
  page_keyboard_press : Page -> value -> M W unit;
  chat_sendMessage : message -> M W GenerateContentResponse
}.

(** ** The transcript

    One constructor for each message that [doTask] writes to the console
    and to output.md, with the data that the message is built from; how the
    message is laid out in Markdown is left out.
    - [LogTaskStarted]: "Starting task: <task>"
    - [LogAgentResponse]: the commentary of a reply
    - [LogNoFunctionCalls]: "No function calls found - task may be complete"
    - [LogProcessing]: "Processing <n> function call(s)"
    - [LogInvalidFunctionCall]: "Invalid function call - missing name or parameters"
    - [LogFunctionCall]: "Calling function <name> with params <params>"
    - [LogFunctionResult]: "Function <name> completed successfully", with the result
    - [LogFunctionError]: "Error calling function <name>: <error>"
    - [LogMaxAttemptsReached]: "Max attempts reached (<maxAttempts>)"
    - [LogTaskCompleted]: "Task completed", "Attempts used: <attempts>/<maxAttempts>" *)
Inductive log_entry : Type :=
| LogTaskStarted (task : string)
| LogAgentResponse (txt : string)
| LogNoFunctionCalls
| LogProcessing (n : nat)
| LogInvalidFunctionCall
| LogFunctionCall (functionName : string) (params : value)
| LogFunctionResult (functionName : string) (result : value)
| LogFunctionError (errorMsg : string)
| LogMaxAttemptsReached (maxAttempts : Z)
| LogTaskCompleted (attempts maxAttempts : Z).

Section Agent.

Context {W Page Browser : Type} {host : Host W Page Browser}.

(** ** tools.ts *)

(** [waitForNetworkIdle(page, timeout = 30000)] of utils.ts. *)
Definition waitForNetworkIdle (page : option Page) (timeout : Z) : M W unit :=
  match page with
  | None => ret tt
  | Some p =>
      try_catch (page_waitForLoadState p "networkidle" timeout)
                (fun _error => page_waitForTimeout p timeout)
  end.

(** The eight actions.  Each runs in its own [try]; [page.content()] yields
    a string, which [|| ""] leaves as it is. *)
Definition callGoto (page : Page) (url : value) : M W value :=
  try_catch
    (page_goto page url ;;
     waitForNetworkIdle (Some page) 30000 ;;
     html <- page_content page ;;
     ret (VObj [("success", VBool true); ("html", VStr html)]))
    (fun err => ret (VObj [("success", VBool false); ("html", VStr ""); ("error", VStr err)])).

Definition callClick (page : Page) (selector : value) : M W value :=
  try_catch
    (page_click page selector 3000 ;;
     ret (VObj [("success", VBool true)]))
    (fun err => ret (VObj [("success", VBool false); ("error", VStr err)])).

Definition callType (page : Page) (selector txt : value) : M W value :=
  try_catch
    (page_locator_fill page selector txt ;;
     ret (VObj [("success", VBool true)]))
    (fun err => ret (VObj [("success", VBool false); ("error", VStr err)])).

Definition callCheckSelector (page : Page) (selector : value) : M W value :=
  try_catch
    (isVisible <- page_locator_isVisible page selector 1000 ;;
     ret (VObj [("success", VBool true); ("isVisible", VBool isVisible)]))
    (fun err =>
       ret (VObj [("success", VBool false); ("isVisible", VBool false); ("error", VStr err)])).

Definition callGetHtml (page : Page) : M W value :=
  try_catch
    (html <- page_content page ;;
     ret (VObj [("success", VBool true); ("html", VStr html)]))
    (fun err => ret (VObj [("success", VBool false); ("html", VStr ""); ("error", VStr err)])).

Definition callCheckCurrentUrl (page : Page) : M W value :=
  try_catch
    (url <- page_url page ;;
     ret (VObj [("success", VBool true); ("url", VStr url)]))
    (fun err => ret (VObj [("success", VBool false); ("url", VStr ""); ("error", VStr err)])).

Definition callScreenshot (page : Page) (path : value) : M W value :=
  try_catch
    (page_screenshot page path ;;
     ret (VObj [("success", VBool true)]))
    (fun _ => ret (VObj [("success", VBool false)])).

Definition callKeyPress (page : Page) (key : value) : M W value :=
  try_catch
    (page_keyboard_press page key ;;
     ret (VObj [("success", VBool true)]))
    (fun err => ret (VObj [("success", VBool false); ("error", VStr err)])).

(** The names that the [switch] of [callFunction] knows. *)
Definition action_names : list string :=
  ["goto"; "click"; "type"; "checkSelector"; "getHtml"; "checkCurrentUrl";
   "screenshot"; "keyPress"].

Definition recognized (functionName : string) : bool :=
  existsb (String.eqb functionName) action_names.

(** The [switch] of [callFunction]; the argument of each action is read
    from [functionParams] before the action, outside its [try]. *)
Definition callFunction (page : Page) (functionName : string) (functionParams : value)
  : M W value :=
  if String.eqb functionName "goto" then
    url <- lift_outcome (get_prop functionParams "url") ;; callGoto page url
  else if String.eqb functionName "click" then
    selector <- lift_outcome (get_prop functionParams "selector") ;; callClick page selector
  else if String.eqb functionName "type" then
    selector <- lift_outcome (get_prop functionParams "selector") ;;
    txt <- lift_outcome (get_prop functionParams "text") ;;
    callType page selector txt
  else if String.eqb functionName "checkSelector" then
    selector <- lift_outcome (get_prop functionParams "selector") ;;
    callCheckSelector page selector
  else if String.eqb functionName "getHtml" then
    callGetHtml page
  else if String.eqb functionName "checkCurrentUrl" then
    callCheckCurrentUrl page
  else if String.eqb functionName "screenshot" then
    path <- lift_outcome (get_prop functionParams "path") ;; callScreenshot page path
  else if String.eqb functionName "keyPress" then
    key <- lift_outcome (get_prop functionParams "key") ;; callKeyPress page key
  else
    ret (VObj [("success", VBool false); ("message", VStr "Function not found")]).

(** The run of an action returned a result: a value with a boolean [success]. *)
Definition returns_result (run : W * outcome value) : Prop :=
  exists w' result b, run = (w', Ok result) /\ success_flag result = Some b.

(** ** agent.ts *)

(** What the agent does that can be observed from outside, in order: the
    entries it writes to the transcript, the messages it sends into the
    chat session, the browsers it launches and closes.  [EvLoopBody] is not
    an effect of the code: it marks each entry into the body of the [while]
    of [doTask], with the value of [attempts] and the reply under
    examination. *)
Inductive event : Type :=
| EvLog (entry : log_entry)
| EvSend (m : message)
| EvLaunch (b : Browser)
| EvClose (b : Browser)
| EvLoopBody (attempts : Z) (response : GenerateContentResponse).

(** The fields of the class that the methods below read or assign, the
    world they act on and the trace of what they did. *)
Record ScraperAgent : Type := {
  world : W;
  page : option Page;
  browser : option Browser;
  maxAttempts : Z;
  trace : list event
}.

(** [new ScraperAgent(page?)]: a fresh transcript, no browser, 50 attempts. *)
Definition new_ScraperAgent (w : W) (pg : option Page) : ScraperAgent :=
  {| world := w; page := pg; browser := None; maxAttempts := 50; trace := [] |}.

Definition set_world (w : W) (s : ScraperAgent) : ScraperAgent :=
  {| world := w; page := page s; browser := browser s;
     maxAttempts := maxAttempts s; trace := trace s |}.

Definition set_page (p : option Page) (s : ScraperAgent) : ScraperAgent :=
  {| world := world s; page := p; browser := browser s;
     maxAttempts := maxAttempts s; trace := trace s |}.

Definition set_browser (b : option Browser) (s : ScraperAgent) : ScraperAgent :=
  {| world := world s; page := page s; browser := b;
     maxAttempts := maxAttempts s; trace := trace s |}.

Definition set_maxAttempts (n : Z) (s : ScraperAgent) : ScraperAgent :=
  {| world := world s; page := page s; browser := browser s;
     maxAttempts := n; trace := trace s |}.

Definition add_event (e : event) (s : ScraperAgent) : ScraperAgent :=
  {| world := world s; page := page s; browser := browser s;
     maxAttempts := maxAttempts s; trace := trace s ++ [e] |}.

Definition get {A} (f : ScraperAgent -> A) : M ScraperAgent A := fun s => (s, Ok (f s)).

Definition modify (f : ScraperAgent -> ScraperAgent) : M ScraperAgent unit :=
  fun s => (f s, Ok tt).

Definition emit (e : event) : M ScraperAgent unit := modify (add_event e).

(** A call into the browser or the chat session. *)
Definition in_world {A} (c : M W A) : M ScraperAgent A :=
  fun s => let (w', o) := c (world s) in (set_world w' s, o).

(** The logging methods append to output.md; they are taken not to throw. *)
Definition log (entry : log_entry) : M ScraperAgent unit := emit (EvLog entry).

(** [this.chat.sendMessage({ message })]. *)
Definition sendMessage (m : message) : M ScraperAgent GenerateContentResponse :=
  emit (EvSend m) ;; in_world (chat_sendMessage m).

Definition initialize : M ScraperAgent unit :=
  p <- get page ;;
  match p with
  | Some _ => ret tt
  | None =>
      b <- in_world chromium_launch ;;
      emit (EvLaunch b) ;;
      modify (set_browser (Some b)) ;;
      pg <- in_world (browser_newPage b) ;;
      modify (set_page (Some pg))
  end.

Definition cleanup : M ScraperAgent unit :=
  b <- get browser ;;
  match b with
  | Some br =>
      emit (EvClose br) ;;
      in_world (browser_close br) ;;
      modify (set_browser None)
  | None => ret tt
  end.

Definition setMaxAttempts (n : Z) : M ScraperAgent unit := modify (set_maxAttempts n).

Definition overridePage (pg : Page) : M ScraperAgent unit := modify (set_page (Some pg)).

(** The text that the loop logs: the parts of every candidate joined, the
    candidates joined by a line feed. *)
Definition candidates_text (response : GenerateContentResponse) : option string :=
  match candidates response with
  | None => None
  | Some cs =>
      Some (js_join (String (ascii_of_nat 10) EmptyString)
              (map (fun c =>
                      match candidate_content c with
                      | None => None
                      | Some ct =>
                          match content_parts ct with
                          | None => None
                          | Some ps => Some (js_join "" (map part_text ps))
                          end
                      end) cs))
  end.

(** [!functionName || !functionParams] is false: the name is a non-empty
    string and the arguments are an object. *)
Definition well_formed_call (call : FunctionCall)
  : option (string * list (string * value)) :=
  match call_name call, call_args call with
  | Some functionName, Some functionParams =>
      if String.eqb functionName "" then None else Some (functionName, functionParams)
  | _, _ => None
  end.

Definition error_message (functionName : string) (err : exn) : string :=
  "Error calling function " ++ functionName ++ ": " ++ err.

(** The body of the [try] of [doTask]. *)
Definition dispatch (pg : Page) (functionName : string)
    (functionParams : list (string * value)) : M ScraperAgent GenerateContentResponse :=
  log (LogFunctionCall functionName (VObj functionParams)) ;;
  result <- in_world (callFunction pg functionName (VObj functionParams)) ;;
  log (LogFunctionResult functionName result) ;;
  sendMessage (FunctionResponseMessage functionName result).

(** Its [catch]. *)
Definition report_error (functionName : string) (err : exn)
  : M ScraperAgent GenerateContentResponse :=
  let errorMsg := error_message functionName err in
  log (LogFunctionError errorMsg) ;;
  sendMessage (TextMessage errorMsg).

(** The [try] with its [catch]. *)
Definition attempt_call (pg : Page) (functionName : string)
    (functionParams : list (string * value)) : M ScraperAgent GenerateContentResponse :=
  try_catch (dispatch pg functionName functionParams) (report_error functionName).

(** [for (const call of functionCalls)]: the list is the one read at the top
    of the iteration, [response] is reassigned after every request. *)
Fixpoint for_calls (pg : Page) (calls : list FunctionCall)
    (response : GenerateContentResponse) : M ScraperAgent GenerateContentResponse :=
  match calls with
  | [] => ret response
  | call :: rest =>
      match well_formed_call call with
      | None => log LogInvalidFunctionCall ;; ret response
      | Some (functionName, functionParams) =>
          response' <- attempt_call pg functionName functionParams ;;
          for_calls pg rest response'
      end
  end.

(** How an execution of the body of the [while] ends: at [break], or at
    [attempts++] with the reply to examine next. *)
Inductive body_exit : Type :=
| Break
| Continue (response : GenerateContentResponse).

(** The top of the body: the commentary of the reply goes to the transcript. *)
Definition log_commentary (response : GenerateContentResponse) : M ScraperAgent unit :=
  let txt := candidates_text response in
  if has_visible_text txt
  then log (LogAgentResponse (match txt with Some t => t | None => "" end))
  else ret tt.

(** The state that [log_commentary] leaves. *)
Definition commentary_logged (response : GenerateContentResponse) (s : ScraperAgent)
  : ScraperAgent :=
  fst (log_commentary response s).

(** The rest of the body: [break] on a reply without requests, the batch
    of requests otherwise. *)
Definition process_reply (pg : Page) (response : GenerateContentResponse)
  : M ScraperAgent body_exit :=
  match functionCalls response with
  | None | Some [] => log LogNoFunctionCalls ;; ret Break
  | Some batch =>
      log (LogProcessing (List.length batch)) ;;
      response' <- for_calls pg batch response ;;
      ret (Continue response')
  end.

Definition while_body (pg : Page) (attempts : Z) (response : GenerateContentResponse)
  : M ScraperAgent body_exit :=
  emit (EvLoopBody attempts response) ;;
  log_commentary response ;;
  process_reply pg response.

(** [while (attempts < this.maxAttempts) { ... attempts++; }].  Neither
    [this.page] nor [this.maxAttempts] is assigned in the loop, so both are
    read once, by the caller. *)
Equations? doTask_while (pg : Page) (maxAtt attempts : Z)
    (response : GenerateContentResponse) (s : ScraperAgent)
  : ScraperAgent * outcome (Z * GenerateContentResponse)
  by wf (Z.to_nat (maxAtt - attempts)) lt :=
  doTask_while pg maxAtt attempts response s with Z_lt_dec attempts maxAtt := {
    | right _ => (s, Ok (attempts, response));
    | left _ with while_body pg attempts response s := {
        | (s', Ok (Continue response')) => doTask_while pg maxAtt (attempts + 1) response' s';
        | (s', Ok Break) => (s', Ok (attempts, response));
        | (s', Throw e) => (s', Throw e) } }.
Proof. lia. Qed.

(** What follows the loop. *)
Definition doTask_finish (attempts : Z) (response : GenerateContentResponse)
  : M ScraperAgent (option string) :=
  maxAtt <- get maxAttempts ;;
  (if attempts =? maxAtt then log (LogMaxAttemptsReached maxAtt) else ret tt) ;;
  log (LogTaskCompleted attempts maxAtt) ;;
  ret (text response).

(** The state that [doTask_finish] leaves. *)
Definition finished (attempts : Z) (s : ScraperAgent) : ScraperAgent :=
  add_event (EvLog (LogTaskCompleted attempts (maxAttempts s)))
    (if attempts =? maxAttempts s
     then add_event (EvLog (LogMaxAttemptsReached (maxAttempts s))) s
     else s).

(** The two tests on [this.page] that open [doTask]. *)
Definition ensure_page : M ScraperAgent Page :=
  p <- get page ;;
  (match p with None => initialize | Some _ => ret tt end) ;;
  p <- get page ;;
  match p with
  | None => throw "Error: Failed to initialize page"
  | Some pg => ret pg
  end.

Definition doTask (task : string) : M ScraperAgent (option string) :=
  pg <- ensure_page ;;
  log (LogTaskStarted task) ;;
  response <- sendMessage (TextMessage task) ;;
  maxAtt <- get maxAttempts ;;
  r <- doTask_while pg maxAtt 0 response ;;
  doTask_finish (fst r) (snd r).

(** ** The agent in the hands of its caller

    The public methods, called one after the other; a caller may go on
    after a method has thrown, with the agent as the method left it. *)
Inductive method : Type :=
| CallDoTask (task : string)
| CallCleanup
| CallSetMaxAttempts (n : Z)
| CallOverridePage (pg : Page).

Definition call (m : method) (s : ScraperAgent) : ScraperAgent :=
  match m with
  | CallDoTask task => fst (doTask task s)
  | CallCleanup => fst (cleanup s)
  | CallSetMaxAttempts n => fst (setMaxAttempts n s)
  | CallOverridePage pg => fst (overridePage pg s)
  end.

Definition calls (ms : list method) (s : ScraperAgent) : ScraperAgent :=
  fold_left (fun st m => call m st) ms s.

(** ** Reading a trace *)

Definition is_loop_body (e : event) : bool :=
  match e with EvLoopBody _ _ => true | _ => false end.

Definition is_close (e : event) : bool :=
  match e with EvClose _ => true | _ => false end.

(** How many times the body of the [while] was entered. *)
Definition loop_bodies (t : list event) : nat := List.length (filter is_loop_body t).

(** The value of [attempts] and the reply at each entry into the body. *)
Fixpoint examined (t : list event) : list (Z * GenerateContentResponse) :=
  match t with
  | [] => []
  | EvLoopBody a r :: rest => (a, r) :: examined rest
  | _ :: rest => examined rest
  end.

(** The messages sent into the chat session. *)
Fixpoint sent (t : list event) : list message :=
  match t with
  | [] => []
  | EvSend m :: rest => m :: sent rest
  | _ :: rest => sent rest
  end.

(** The value of [attempts] when [doTask] left its loop, as its last
    transcript entry reports it ("Attempts used: a/max"). *)
Definition attempts_at_exit (t : list event) : option Z :=
  match rev t with
  | EvLog (LogTaskCompleted a _) :: _ => Some a
  | _ => None
  end.

(** ** What a computation leaves alone

    [frames R c]: whatever [c] does, returning or throwing, its final state
    is related by [R] to the state it started in. *)
Definition frames {A} (R : ScraperAgent -> ScraperAgent -> Prop) (c : M ScraperAgent A)
  : Prop :=
  forall s s' o, c s = (s', o) -> R s s'.

(** The trace only grows, by events that satisfy [P], and the budget stays. *)
Definition appends (P : event -> Prop) (s s' : ScraperAgent) : Prop :=
  maxAttempts s' = maxAttempts s /\
  exists new, trace s' = (trace s ++ new)%list /\ Forall P new.

(** An event other than the mark of an entry into the loop body. *)
Definition quiet (e : event) : Prop := is_loop_body e = false.

(** [k], [k + 1], ..., [k + n - 1]. *)
Definition counting_from (k : Z) (n : nat) : list Z :=
  map (fun i => k + Z.of_nat i) (seq 0 n).

(** The trace grows, by at most [n] entries into the loop body. *)
Definition grows (n : nat) (s s' : ScraperAgent) : Prop :=
  maxAttempts s' = maxAttempts s /\
  exists new, trace s' = (trace s ++ new)%list /\ (loop_bodies new <= n)%nat.

Definition same_handles (s s' : ScraperAgent) : Prop :=
  page s' = page s /\ browser s' = browser s.

(** Page and browser stay as they are, and no browser is closed. *)
Definition undisturbed (s s' : ScraperAgent) : Prop :=
  same_handles s s' /\ appends (fun e => is_close e = false) s s'.

(** The browser that the agent holds is one that [initialize] launched. *)
Definition holds_launched_browser (s : ScraperAgent) : Prop :=
  forall b, browser s = Some b -> In (EvLaunch b) (trace s).

(** The browsers closed, in order. *)
Fixpoint closed (t : list event) : list Browser :=
  match t with
  | [] => []
  | EvClose b :: rest => b :: closed rest
  | _ :: rest => closed rest
  end.

Definition no_calls (response : GenerateContentResponse) : Prop :=
  functionCalls response = None \/ functionCalls response = Some [].

(** The reply asks for something, and what it asks first lacks a name or
    its arguments. *)
Definition first_call_malformed (response : GenerateContentResponse) : bool :=
  match functionCalls response with
  | Some (call :: _) =>
      match well_formed_call call with None => true | Some _ => false end
  | _ => false
  end.

End Agent.

(** ** A scripted host

    The chat session answers from a script, one entry per message sent to
    it, and throws once the script is used up; every browser operation
    succeeds.  Pages and browsers are numbers: the browser launched is 1 and
    its page is 2. *)

Definition Script : Type := list (outcome GenerateContentResponse).

Definition scripted_sendMessage (_ : message) : M Script GenerateContentResponse :=
  fun script =>
    match script with
    | [] => ([], Throw "Error: the session is closed")
    | answer :: rest => (rest, answer)
    end.

#[export] Instance scripted_host : Host Script nat nat := {|
  chromium_launch := ret 1%nat;
  browser_newPage := fun _ => ret 2%nat;
  browser_close := fun _ => ret tt;
  page_goto := fun _ _ => ret tt;
  page_waitForLoadState := fun _ _ _ => ret tt;
  page_waitForTimeout := fun _ _ => ret tt;
  page_content := fun _ => ret "<html></html>";
  page_click := fun _ _ _ => ret tt;
  page_locator_fill := fun _ _ _ => ret tt;
  page_locator_isVisible := fun _ _ _ => ret true;
  page_url := fun _ => ret "https://example.com/";
  page_screenshot := fun _ _ => ret tt;
  page_keyboard_press := fun _ _ => ret tt;
  chat_sendMessage := scripted_sendMessage
|}.

Definition text_reply (t : string) : GenerateContentResponse :=
  {| candidates :=
       Some [ {| candidate_content :=
                   Some {| content_parts := Some [ {| part_text := Some t |} ] |} |} ];
     functionCalls := None;
     text := Some t |}.

Definition calls_reply (calls : list FunctionCall) : GenerateContentResponse :=
  {| candidates :=
       Some [ {| candidate_content :=
                   Some {| content_parts := Some (map (fun _ => {| part_text := None |}) calls) |} |} ];
     functionCalls := Some calls;
     text := None |}.

Definition goto_example : FunctionCall :=
  {| call_name := Some "goto";
     call_args := Some [("url", VStr "https://example.com")] |}.

Definition nameless_call : FunctionCall :=
  {| call_name := None; call_args := Some [("selector", VStr "#go")] |}.

Definition click_go : FunctionCall :=
  {| call_name := Some "click"; call_args := Some [("selector", VStr "#go")] |}.

(** The scenario of the specification: one navigation, then "Done.". *)
Definition navigate_then_done : Script :=
  [Ok (calls_reply [goto_example]); Ok (text_reply "Done.")].


(** ** index.ts and the rest of the agent's life *)

Section Program.

Context {W Page Browser : Type} {host : Host W Page Browser}.

Definition line_feed : string := String (ascii_of_nat 10) EmptyString.

(** The template literal that [main] passes to [doTask]. *)
Definition main_task : string :=
  (line_feed ++ "    Go to Bing and search for 'playwright'." ++
   line_feed ++ "    Open the most relevant result and screenshot the page." ++
   line_feed ++ "  ")%string.

(** The body of [main], on the agent that [new ScraperAgent()] makes:
    [cleanup] is awaited after [doTask], and only when [doTask] returns. *)
Definition main_body : M (@ScraperAgent W Page Browser) unit :=
  doTask main_task ;; cleanup.

Definition main (w : W) : @ScraperAgent W Page Browser * outcome unit :=
  main_body (new_ScraperAgent w None).

(** The browsers launched, in order. *)
Fixpoint launched (t : list (@event Browser)) : list Browser :=
  match t with
  | [] => []
  | EvLaunch b :: rest => b :: launched rest
  | _ :: rest => launched rest
  end.

(** The budget after a series of calls: the argument of the last
    [setMaxAttempts] among them, the budget before when there is none. *)
Definition budget_after (ms : list (@method Page)) (before : Z) : Z :=
  fold_left (fun n m => match m with CallSetMaxAttempts k => k | _ => n end) ms before.

(** A field of a result. *)
Definition field (key : string) (result : value) : option value :=
  match result with
  | VObj fields => lookup_field key fields
  | _ => None
  end.

(** [functionParams.key], for parameters that are an object. *)
Definition argument (fields : list (string * value)) (key : string) : value :=
  match lookup_field key fields with
  | Some x => x
  | None => VUndefined
  end.

(** The browser operation of an action threw [e], and left the world [w']:
    for [goto] the navigation, the wait for the idle network or the reading
    of the content; for the other actions their one operation. *)
Definition action_raises (pg : Page) (functionName : string)
    (fields : list (string * value)) (w w' : W) (e : exn) : Prop :=
  (functionName = "goto"%string /\
   (page_goto pg (argument fields "url") w = (w', Throw e) \/
    exists w1,
      page_goto pg (argument fields "url") w = (w1, Ok tt) /\
      (waitForNetworkIdle (Some pg) 30000 w1 = (w', Throw e) \/
       exists w2,
         waitForNetworkIdle (Some pg) 30000 w1 = (w2, Ok tt) /\
         page_content pg w2 = (w', Throw e)))) \/
  (functionName = "click"%string /\
   page_click pg (argument fields "selector") 3000 w = (w', Throw e)) \/
  (functionName = "type"%string /\
   page_locator_fill pg (argument fields "selector") (argument fields "text") w =
   (w', Throw e)) \/
  (functionName = "checkSelector"%string /\
   page_locator_isVisible pg (argument fields "selector") 1000 w = (w', Throw e)) \/
  (functionName = "getHtml"%string /\ page_content pg w = (w', Throw e)) \/
  (functionName = "checkCurrentUrl"%string /\ page_url pg w = (w', Throw e)) \/
  (functionName = "keyPress"%string /\
   page_keyboard_press pg (argument fields "key") w = (w', Throw e)).

(** The names of the [switch] whose action takes an argument out of
    [functionParams]. *)
Definition reads_parameters (functionName : string) : bool :=
  existsb (String.eqb functionName)
    ["goto"; "click"; "type"; "checkSelector"; "screenshot"; "keyPress"].

(** What the loop of [doTask] sends: the result of an action, under the
    name of the request and with a boolean [success], or the diagnostic of
    a failed dispatch. *)
Definition loop_message (m : message) : Prop :=
  match m with
  | FunctionResponseMessage functionName result =>
      functionName <> ""%string /\ exists b, success_flag result = Some b
  | TextMessage msg => exists functionName err, msg = error_message functionName err
  end.

(** What the loop of [doTask] leaves in the trace. *)
Definition loop_event (e : @event Browser) : Prop :=
  match e with
  | EvSend m => loop_message m
  | EvLog (LogTaskStarted _) | EvLog (LogMaxAttemptsReached _)
  | EvLog (LogTaskCompleted _ _) => False
  | EvLog _ => True
  | EvLaunch _ | EvClose _ => False
  | EvLoopBody _ _ => True
  end.

(** An event of a task: anything but the launch or the close of a browser. *)
Definition task_event (e : @event Browser) : Prop :=
  match e with
  | EvLaunch _ | EvClose _ => False
  | _ => True
  end.

(** The two entries that [doTask] writes after its loop. *)
Definition closing_entry (e : @event Browser) : Prop :=
  match e with
  | EvLog (LogMaxAttemptsReached _) | EvLog (LogTaskCompleted _ _) => True
  | _ => False
  end.

(** The value that the dispatcher returns for a name it does not know. *)
Definition function_not_found : value :=
  VObj [("success", VBool false); ("message", VStr "Function not found")].

(** The chat session answers every message. *)
Definition chat_always_replies : Prop :=
  forall (m : message) (w : W), exists w' r, chat_sendMessage m w = (w', Ok r).

(** A reply that asks for exactly one action, with a name and arguments. *)
Definition single_request (r : GenerateContentResponse) : Prop :=
  exists call, functionCalls r = Some [call] /\ well_formed_call call <> None.

End Program.

(** The names under which results of actions were sent, in order. *)
Fixpoint dispatched_names (ms : list message) : list string :=
  match ms with
  | [] => []
  | FunctionResponseMessage functionName _ :: rest => functionName :: dispatched_names rest
  | TextMessage _ :: rest => dispatched_names rest
  end.

(** The names of the requests of a batch, up to the first request that
    lacks a name or its arguments. *)
Fixpoint dispatchable (batch : list FunctionCall) : list string :=
  match batch with
  | [] => []
  | call :: rest =>
      match well_formed_call call with
      | Some (functionName, _) => functionName :: dispatchable rest
      | None => []
      end
  end.

(** ** A staged host

    A browser in which the operations named by [fails] throw and the others
    succeed, and a chat session that answers by [chat] whatever was said
    before.  There is no state. *)

Definition staged {A} (fails : string -> option exn) (operation : string) (a : A)
  : M unit A :=
  fun w =>
    match fails operation with
    | Some e => (w, Throw e)
    | None => (w, Ok a)
    end.

Definition staged_host (fails : string -> option exn)
    (chat : message -> GenerateContentResponse) : Host unit nat nat := {|
  chromium_launch := staged fails "launch" 1%nat;
  browser_newPage := fun _ => staged fails "newPage" 2%nat;
  browser_close := fun _ => staged fails "close" tt;
  page_goto := fun _ _ => staged fails "goto" tt;
  page_waitForLoadState := fun _ _ _ => staged fails "waitForLoadState" tt;
  page_waitForTimeout := fun _ _ => staged fails "waitForTimeout" tt;
  page_content := fun _ => staged fails "content" "<html></html>"%string;
  page_click := fun _ _ _ => staged fails "click" tt;
  page_locator_fill := fun _ _ _ => staged fails "fill" tt;
  page_locator_isVisible := fun _ _ _ => staged fails "isVisible" true;
  page_url := fun _ => staged fails "url" "https://example.com/"%string;
  page_screenshot := fun _ _ => staged fails "screenshot" tt;
  page_keyboard_press := fun _ _ => staged fails "press" tt;
  chat_sendMessage := fun m => ret (chat m)
|}.

(** The network never goes idle. *)
Definition busy_network (operation : string) : option exn :=
  if String.eqb operation "waitForLoadState"
  then Some "TimeoutError: page.waitForLoadState: Timeout 30000ms exceeded."%string
  else None.

(** The page is gone: whatever is asked of it throws. *)
Definition page_closed (operation : string) : option exn :=
  if String.eqb operation "launch" || String.eqb operation "newPage"
     || String.eqb operation "close"
  then None
  else Some "Error: Target page, context or browser has been closed"%string.

(** The pages cannot be opened. *)
Definition no_new_page (operation : string) : option exn :=
  if String.eqb operation "newPage"
  then Some "Error: browser.newPage: Target closed"%string
  else None.

(** A model that asks for a click first and is done after any answer. *)
Definition click_then_done (m : message) : GenerateContentResponse :=
  match m with
  | TextMessage msg =>
      if String.prefix "Error calling function" msg
      then text_reply "Done."
      else calls_reply [click_go]
  | FunctionResponseMessage _ _ => text_reply "Done."
  end.

(** ** The transcript on the console and in output.md

    The logging methods of the agent, on the lines of the console and the
    content of the file output.md, a string of bytes.  Writing to the file
    is taken to succeed.  [logFunctionCall] gets the two renderings of its
    parameters, [JSON.stringify(params)] and [JSON.stringify(params, null, 2)],
    as strings. *)

Module Transcript.

Record Sink : Type := {
  console : list string;
  output_md : string
}.

(** [console.log(line)]. *)
Definition console_log (line : string) (k : Sink) : Sink :=
  {| console := console k ++ [line]; output_md := output_md k |}.

(** [appendFileSync("output.md", content)]. *)
Definition appendFileSync (content : string) (k : Sink) : Sink :=
  {| console := console k; output_md := (output_md k ++ content)%string |}.

Definition header : string := ("# Scraper Agent Log" ++ line_feed ++ line_feed)%string.

(** [writeFileSync("output.md", "# Scraper Agent Log\n\n")]. *)
Definition prepareMd (k : Sink) : Sink :=
  {| console := console k; output_md := header |}.

(** The wrench and the robot face of the headings, in UTF-8. *)
Definition wrench : string :=
  String (ascii_of_nat 240) (String (ascii_of_nat 159)
    (String (ascii_of_nat 148) (String (ascii_of_nat 167) EmptyString))).

Definition robot_face : string :=
  String (ascii_of_nat 240) (String (ascii_of_nat 159)
    (String (ascii_of_nat 164) (String (ascii_of_nat 150) EmptyString))).

Definition log (message : string) (markdownMessage : option string) (k : Sink) : Sink :=
  if all_white_space message then k
  else
    let mdContent :=
      match markdownMessage with
      | Some m => if String.eqb m "" then message else m
      | None => message
      end in
    appendFileSync (mdContent ++ line_feed ++ line_feed)
      (console_log ("[Agent] " ++ message) k).

Definition logMarkdown (consoleMsg markdownContent : string) (k : Sink) : Sink :=
  appendFileSync (markdownContent ++ line_feed ++ line_feed)
    (console_log ("[Agent] " ++ consoleMsg) k).

Definition logSystemMessage (message : string) (k : Sink) : Sink :=
  appendFileSync ("> **System**: " ++ message ++ line_feed ++ line_feed)
    (console_log ("[Agent] " ++ message) k).

Definition logFunctionCall (functionName params_json params_json_2 : string) (k : Sink)
  : Sink :=
  let consoleMsg :=
    ("Calling function " ++ functionName ++ " with params " ++ params_json)%string in
  let markdownMsg :=
    ("### " ++ wrench ++ " Function Call: `" ++ functionName ++ "`" ++
     line_feed ++ line_feed ++ "```json" ++ line_feed ++
     params_json_2 ++ line_feed ++ "```")%string in
  logMarkdown consoleMsg markdownMsg k.

Definition logAgentResponse (txt : string) (k : Sink) : Sink :=
  if all_white_space txt then k
  else
    appendFileSync
      ("## " ++ robot_face ++ " Agent Response" ++ line_feed ++ line_feed ++
       txt ++ line_feed ++ line_feed)
      (console_log ("[Agent] " ++ txt) k).

(** A call of one of the logging methods. *)
Inductive logging : Type :=
| Log (message : string) (markdownMessage : option string)
| LogMarkdown (consoleMsg markdownContent : string)
| LogSystemMessage (message : string)
| LogFunctionCall (functionName params_json params_json_2 : string)
| LogAgentResponse (txt : string).

Definition write (c : logging) : Sink -> Sink :=
  match c with
  | Log message markdownMessage => log message markdownMessage
  | LogMarkdown consoleMsg markdownContent => logMarkdown consoleMsg markdownContent
  | LogSystemMessage message => logSystemMessage message
  | LogFunctionCall functionName j j2 => logFunctionCall functionName j j2
  | LogAgentResponse txt => logAgentResponse txt
  end.

(** The message of a call, as the console shows it. *)
Definition console_message (c : logging) : string :=
  match c with
  | Log message _ => message
  | LogMarkdown consoleMsg _ => consoleMsg
  | LogSystemMessage message => message
  | LogFunctionCall functionName j _ =>
      ("Calling function " ++ functionName ++ " with params " ++ j)%string
  | LogAgentResponse txt => txt
  end.

(** The calls that write nothing: [log] and [logAgentResponse] on a message
    that is empty or all white space. *)
Definition skipped (c : logging) : bool :=
  match c with
  | Log message _ => all_white_space message
  | LogAgentResponse txt => all_white_space txt
  | _ => false
  end.

(** Every entry of the file ends with an empty line. *)
Definition ends_with_empty_line (entry : string) : Prop :=
  exists body, entry = (body ++ line_feed ++ line_feed)%string.

End Transcript.

(** * Properties *)

Local Open Scope list_scope.

Section Frames.

Context {W Page Browser : Type} {host : Host W Page Browser}.

Variable R : @ScraperAgent W Page Browser -> @ScraperAgent W Page Browser -> Prop.
Variable P : @event Browser -> Prop.
Hypothesis R_refl : forall s, R s s.
Hypothesis R_trans : forall s1 s2 s3, R s1 s2 -> R s2 s3 -> R s1 s3.
Hypothesis R_world : forall w s, R s (set_world w s).
Hypothesis R_event : forall e s, P e -> R s (add_event e s).
Hypothesis P_log : forall entry, P (EvLog entry).
Hypothesis P_send : forall m, P (EvSend m).

Lemma bind_inv {S A B} (c : M S A) (k : A -> M S B) (s s' : S) (o : outcome B) :
  bind c k s = (s', o) ->
  (exists s1 a, c s = (s1, Ok a) /\ k a s1 = (s', o)) \/
  (exists e, c s = (s', Throw e) /\ o = Throw e).
Proof.
  unfold bind. destruct (c s) as [s1 [a | e]]; intros H.
  - left. exists s1, a. auto.
  - right. inversion H; subst. exists e. auto.
Qed.

Lemma frames_ret {A} (a : A) : frames R (ret a).
Proof. intros s s' o H. inversion H; subst. apply R_refl. Qed.

Lemma frames_throw {A} (e : exn) : frames R (@throw _ A e).
Proof. intros s s' o H. inversion H; subst. apply R_refl. Qed.

Lemma frames_get {A} (f : ScraperAgent -> A) : frames R (get f).
Proof. intros s s' o H. inversion H; subst. apply R_refl. Qed.

Lemma frames_bind {A B} (c : M ScraperAgent A) (k : A -> M ScraperAgent B) :
  frames R c -> (forall a, frames R (k a)) -> frames R (bind c k).
Proof.
  intros Hc Hk s s' o H. unfold bind in H.
  destruct (c s) as [s1 [a | e]] eqn:E.
  - eapply R_trans; [eapply Hc; eassumption | eapply Hk; eassumption].
  - inversion H; subst. eapply Hc; eassumption.
Qed.

Lemma frames_try_catch {A} (c : M ScraperAgent A) (h : exn -> M ScraperAgent A) :
  frames R c -> (forall e, frames R (h e)) -> frames R (try_catch c h).
Proof.
  intros Hc Hh s s' o H. unfold try_catch in H.
  destruct (c s) as [s1 [a | e]] eqn:E.
  - inversion H; subst. eapply Hc; eassumption.
  - eapply R_trans; [eapply Hc; eassumption | eapply Hh; eassumption].
Qed.

Lemma frames_in_world {A} (c : M W A) : frames R (in_world c).
Proof.
  intros s s' o H. unfold in_world in H.
  destruct (c (world s)) as [w' o']. inversion H; subst. apply R_world.
Qed.

Lemma frames_modify (f : ScraperAgent -> ScraperAgent) :
  (forall s, R s (f s)) -> frames R (modify f).
Proof. intros Hf s s' o H. inversion H; subst. apply Hf. Qed.

Lemma frames_emit (e : event) : P e -> frames R (emit e).
Proof. intros He s s' o H. inversion H; subst. apply R_event, He. Qed.

Lemma frames_log (entry : log_entry) : frames R (log entry).
Proof. apply frames_emit, P_log. Qed.

Lemma frames_sendMessage (m : message) : frames R (sendMessage m).
Proof.
  unfold sendMessage. apply frames_bind.
  - apply frames_emit, P_send.
  - intros _. apply frames_in_world.
Qed.

Lemma frames_dispatch pg functionName functionParams :
  frames R (dispatch pg functionName functionParams).
Proof.
  unfold dispatch.
  apply frames_bind; [apply frames_log | intros _].
  apply frames_bind; [apply frames_in_world | intros result].
  apply frames_bind; [apply frames_log | intros _].
  apply frames_sendMessage.
Qed.

Lemma frames_report_error functionName err : frames R (report_error functionName err).
Proof.
  unfold report_error.
  apply frames_bind; [apply frames_log | intros _; apply frames_sendMessage].
Qed.

Lemma frames_attempt_call pg functionName functionParams :
  frames R (attempt_call pg functionName functionParams).
Proof.
  unfold attempt_call.
  apply frames_try_catch; [apply frames_dispatch | intros e; apply frames_report_error].
Qed.

Lemma frames_for_calls pg batch response : frames R (for_calls pg batch response).
Proof.
  revert response. induction batch as [| call rest IH]; intros response; simpl.
  - apply frames_ret.
  - destruct (well_formed_call call) as [[functionName functionParams] |].
    + apply frames_bind; [apply frames_attempt_call | intros r; apply IH].
    + apply frames_bind; [apply frames_log | intros _; apply frames_ret].
Qed.

Lemma frames_doTask_finish attempts response : frames R (doTask_finish attempts response).
Proof.
  unfold doTask_finish.
  apply frames_bind; [apply frames_get | intros maxAtt].
  apply frames_bind.
  - destruct (attempts =? maxAtt); [apply frames_log | apply frames_ret].
  - intros _. apply frames_bind; [apply frames_log | intros _; apply frames_ret].
Qed.

Lemma frames_log_commentary response : frames R (log_commentary response).
Proof.
  unfold log_commentary.
  destruct (has_visible_text (candidates_text response));
    [apply frames_log | apply frames_ret].
Qed.

Lemma frames_process_reply pg response : frames R (process_reply pg response).
Proof.
  unfold process_reply.
  destruct (functionCalls response) as [[| call rest] |].
  - apply frames_bind; [apply frames_log | intros _; apply frames_ret].
  - apply frames_bind; [apply frames_log | intros _].
    apply frames_bind; [apply frames_for_calls | intros r; apply frames_ret].
  - apply frames_bind; [apply frames_log | intros _; apply frames_ret].
Qed.

End Frames.

Section Loop.

Context {W Page Browser : Type} {host : Host W Page Browser}.

Local Abbreviation Agent := (@ScraperAgent W Page Browser).
Local Abbreviation Event := (@event Browser).

Lemma doTask_while_eq (pg : Page) (N k : Z) (r : GenerateContentResponse) (s : Agent) :
  doTask_while pg N k r s =
  if k <? N then
    match while_body pg k r s with
    | (s', Ok (Continue r')) => doTask_while pg N (k + 1) r' s'
    | (s', Ok Break) => (s', Ok (k, r))
    | (s', Throw e) => (s', Throw e)
    end
  else (s, Ok (k, r)).
Proof.
  simp doTask_while.
  destruct (Z_lt_dec k N) as [Hlt | Hge]; simpl.
  - destruct (while_body pg k r s) as [s' [[| r'] | e]]; simpl;
      destruct (Z.ltb_spec k N); try lia; reflexivity.
  - destruct (Z.ltb_spec k N); try lia; reflexivity.
Qed.

Lemma appends_refl (P : Event -> Prop) (s : Agent) : appends P s s.
Proof. split; [reflexivity |]. exists []. rewrite app_nil_r. auto. Qed.

Lemma appends_trans (P : Event -> Prop) (s1 s2 s3 : Agent) :
  appends P s1 s2 -> appends P s2 s3 -> appends P s1 s3.
Proof.
  intros [Hm1 [n1 [Ht1 Hp1]]] [Hm2 [n2 [Ht2 Hp2]]]. split; [congruence |].
  exists (n1 ++ n2). split.
  - rewrite Ht2, Ht1, app_assoc. reflexivity.
  - apply Forall_app. auto.
Qed.

Lemma appends_world (P : Event -> Prop) (w : W) (s : Agent) :
  appends P s (set_world w s).
Proof. split; [reflexivity |]. exists []. simpl. rewrite app_nil_r. auto. Qed.

Lemma appends_event (P : Event -> Prop) (e : event) (s : Agent) :
  P e -> appends P s (add_event e s).
Proof. intros He. split; [reflexivity |]. exists [e]. auto. Qed.

Lemma same_handles_refl (s : Agent) : same_handles s s.
Proof. split; reflexivity. Qed.

Lemma same_handles_trans (s1 s2 s3 : Agent) :
  same_handles s1 s2 -> same_handles s2 s3 -> same_handles s1 s3.
Proof. intros [H1 H2] [H3 H4]. split; congruence. Qed.

Lemma examined_app (t1 t2 : list (Event)) :
  examined (t1 ++ t2) = examined t1 ++ examined t2.
Proof.
  induction t1 as [| e t1 IH]; simpl; [reflexivity |].
  destruct e; simpl; rewrite ?IH; reflexivity.
Qed.

Lemma examined_quiet (t : list (Event)) : Forall quiet t -> examined t = [].
Proof.
  induction 1 as [| e t He _ IH]; simpl; [reflexivity |].
  destruct e; unfold quiet in He; simpl in *; try discriminate; exact IH.
Qed.

Lemma loop_bodies_examined (t : list (Event)) :
  loop_bodies t = List.length (examined t).
Proof.
  unfold loop_bodies. induction t as [| e t IH]; simpl; [reflexivity |].
  destruct e; simpl; rewrite ?IH; reflexivity.
Qed.

Lemma sent_app (t1 t2 : list (Event)) : sent (t1 ++ t2) = sent t1 ++ sent t2.
Proof.
  induction t1 as [| e t1 IH]; simpl; [reflexivity |].
  destruct e; simpl; rewrite ?IH; reflexivity.
Qed.

Lemma counting_from_S (k : Z) (n : nat) :
  counting_from k (S n) = k :: counting_from (k + 1) n.
Proof.
  unfold counting_from. simpl. f_equal; [f_equal; lia |].
  rewrite <- seq_shift, map_map. apply map_ext. intros i. lia.
Qed.

Ltac frame_side :=
  first [ apply appends_refl | apply appends_trans | apply appends_world
        | apply appends_event | apply same_handles_refl | apply same_handles_trans
        | reflexivity | (intros; exact I) | (intros; split; reflexivity) ].

Lemma process_reply_quiet (pg : Page) (r : GenerateContentResponse) :
  frames (appends quiet) (process_reply (host := host) pg r).
Proof. eapply frames_process_reply with (P := quiet); frame_side. Qed.

Lemma log_commentary_quiet (r : GenerateContentResponse) :
  frames (appends quiet) (log_commentary (W := W) (Page := Page) (Browser := Browser) r).
Proof. eapply frames_log_commentary with (P := quiet); frame_side. Qed.

(** The body marks its entry and is quiet afterwards. *)
Lemma while_body_trace (pg : Page) (k : Z) (r : GenerateContentResponse) (s s1 : Agent) o :
  while_body pg k r s = (s1, o) ->
  maxAttempts s1 = maxAttempts s /\
  exists rest, trace s1 = trace s ++ EvLoopBody k r :: rest /\ Forall quiet rest.
Proof.
  intros H.
  assert (Hq : appends quiet (add_event (EvLoopBody k r) s) s1).
  { revert H. unfold while_body.
    change (emit (EvLoopBody k r) ;; ?c)
      with (fun st : Agent => c (add_event (EvLoopBody k r) st)).
    cbv beta.
    apply (frames_bind (appends quiet)); try frame_side.
    - apply log_commentary_quiet.
    - intros _. apply process_reply_quiet. }
  destruct Hq as [Hm [rest [Ht Hrest]]]. simpl in Hm, Ht.
  split; [exact Hm |]. exists rest. split; [| exact Hrest].
  rewrite Ht, <- app_assoc. reflexivity.
Qed.

Lemma process_reply_break (pg : Page) (r : GenerateContentResponse) (s s1 : Agent) :
  process_reply pg r s = (s1, Ok Break) -> no_calls r.
Proof.
  unfold process_reply, no_calls.
  destruct (functionCalls r) as [[| call rest] |]; auto.
  intros H. exfalso. revert H. unfold bind. unfold log, emit, modify.
  match goal with
  | |- context [for_calls pg (call :: rest) r ?st] =>
      destruct (for_calls pg (call :: rest) r st) as [s2 [r2 | e]]
  end; discriminate.
Qed.

Lemma while_body_break (pg : Page) (k : Z) (r : GenerateContentResponse) (s s1 : Agent) :
  while_body pg k r s = (s1, Ok Break) -> no_calls r.
Proof.
  unfold while_body, bind at 1 2. simpl.
  match goal with
  | |- context [log_commentary r ?st] =>
      destruct (log_commentary r st) as [s2 [[] | e]]
  end; [| discriminate].
  apply process_reply_break.
Qed.

(** The loop, seen from its trace. *)
Lemma doTask_while_trace (pg : Page) (N : Z) (n : nat) :
  forall (k : Z) (r : GenerateContentResponse) (s s' : Agent) o,
  n = Z.to_nat (N - k) ->
  doTask_while pg N k r s = (s', o) ->
  maxAttempts s' = maxAttempts s /\
  exists new,
    trace s' = trace s ++ new /\
    map fst (examined new) = counting_from k (loop_bodies new) /\
    (loop_bodies new <= n)%nat /\
    match o with
    | Ok (a, r') =>
        (a < N /\ Z.of_nat (loop_bodies new) = a - k + 1 /\ no_calls r') \/
        (N <= a /\ Z.of_nat (loop_bodies new) = a - k)
    | Throw _ => True
    end.
Proof.
  induction n as [| n IH]; intros k r s s' o Hn H;
    rewrite doTask_while_eq in H; destruct (Z.ltb_spec k N) as [Hlt | Hge]; try lia.
  - inversion H; subst. split; [reflexivity |]. exists []. rewrite app_nil_r.
    unfold loop_bodies. simpl. split; [reflexivity |]. split; [reflexivity |].
    split; [lia |]. right. lia.
  - destruct (while_body pg k r s) as [s1 [[| r1] | e]] eqn:Hb.
    + pose proof (while_body_break _ _ _ _ _ Hb) as Hnc.
      apply while_body_trace in Hb as [Hm [rest [Ht Hq]]].
      inversion H; subst. split; [exact Hm |].
      exists (EvLoopBody k r :: rest). rewrite loop_bodies_examined. simpl.
      rewrite (examined_quiet _ Hq). simpl.
      split; [exact Ht |]. split; [unfold counting_from; simpl; f_equal; lia |].
      split; [lia |]. left. split; [lia |]. split; [lia | exact Hnc].
    + apply while_body_trace in Hb as [Hm [rest [Ht Hq]]].
      apply IH in H; [| lia]. destruct H as [Hm' [new [Ht' [Hc [Hle Ho]]]]].
      split; [congruence |].
      exists (EvLoopBody k r :: rest ++ new).
      rewrite loop_bodies_examined in *. simpl.
      rewrite examined_app, (examined_quiet _ Hq). simpl.
      rewrite counting_from_S, Hc.
      split; [rewrite Ht', Ht, <- app_assoc; reflexivity |].
      split; [reflexivity |]. split; [lia |].
      destruct o as [[a r'] | e]; [| exact I].
      destruct Ho as [[H1 [H2 H3]] | [H1 H2]]; [left | right].
      * split; [lia |]. split; [lia | exact H3].
      * split; lia.
    + apply while_body_trace in Hb as [Hm [rest [Ht Hq]]].
      inversion H; subst. split; [exact Hm |].
      exists (EvLoopBody k r :: rest). rewrite loop_bodies_examined. simpl.
      rewrite (examined_quiet _ Hq). simpl.
      split; [exact Ht |]. split; [unfold counting_from; simpl; f_equal; lia |].
      split; [lia | exact I].
Qed.

Lemma loop_bodies_app (t1 t2 : list Event) :
  loop_bodies (t1 ++ t2) = (loop_bodies t1 + loop_bodies t2)%nat.
Proof. rewrite !loop_bodies_examined, examined_app. apply length_app. Qed.

Lemma loop_bodies_quiet (t : list Event) : Forall quiet t -> loop_bodies t = 0%nat.
Proof. intros H. rewrite loop_bodies_examined, (examined_quiet _ H). reflexivity. Qed.

Lemma grows_trans (a b : nat) (s1 s2 s3 : Agent) :
  grows a s1 s2 -> grows b s2 s3 -> grows (a + b) s1 s3.
Proof.
  intros [Hm1 [n1 [Ht1 Hb1]]] [Hm2 [n2 [Ht2 Hb2]]]. split; [congruence |].
  exists (n1 ++ n2). split.
  - rewrite Ht2, Ht1, app_assoc. reflexivity.
  - rewrite loop_bodies_app. lia.
Qed.

Lemma appends_quiet_grows (s s' : Agent) : appends quiet s s' -> grows 0 s s'.
Proof.
  intros [Hm [new [Ht Hq]]]. split; [exact Hm |]. exists new. split; [exact Ht |].
  rewrite (loop_bodies_quiet _ Hq). lia.
Qed.

Lemma appends_same_trace (P : Event -> Prop) (s s' : Agent) :
  maxAttempts s' = maxAttempts s -> trace s' = trace s -> appends P s s'.
Proof.
  intros Hm Ht. split; [exact Hm |]. exists []. rewrite app_nil_r. auto.
Qed.

Lemma initialize_quiet : frames (appends quiet) (initialize (host := host)).
Proof.
  unfold initialize.
  apply (frames_bind (appends quiet)); try frame_side.
  { eapply frames_get; frame_side. }
  intros [p |]; [eapply frames_ret; frame_side |].
  apply (frames_bind (appends quiet)); try frame_side.
  { eapply frames_in_world; frame_side. }
  intros b. apply (frames_bind (appends quiet)); try frame_side.
  { eapply frames_emit with (P := quiet); frame_side. }
  intros _. apply (frames_bind (appends quiet)); try frame_side.
  { eapply frames_modify. intros st. apply appends_same_trace; reflexivity. }
  intros _. apply (frames_bind (appends quiet)); try frame_side.
  { eapply frames_in_world; frame_side. }
  intros pg. eapply frames_modify. intros st. apply appends_same_trace; reflexivity.
Qed.

Lemma ensure_page_quiet : frames (appends quiet) (ensure_page (host := host)).
Proof.
  unfold ensure_page.
  apply (frames_bind (appends quiet)); try frame_side.
  { eapply frames_get; frame_side. }
  intros p. apply (frames_bind (appends quiet)); try frame_side.
  { destruct p; [eapply frames_ret; frame_side | apply initialize_quiet]. }
  intros _. apply (frames_bind (appends quiet)); try frame_side.
  { eapply frames_get; frame_side. }
  intros [pg |]; [eapply frames_ret | eapply frames_throw]; frame_side.
Qed.

(** [doTask], step by step. *)
Lemma doTask_eq (task : string) (s : Agent) :
  doTask task s =
  match ensure_page s with
  | (s1, Throw e) => (s1, Throw e)
  | (s1, Ok pg) =>
      let s2 := add_event (EvSend (TextMessage task))
                  (add_event (EvLog (LogTaskStarted task)) s1) in
      match chat_sendMessage (TextMessage task) (world s2) with
      | (w3, Throw e) => (set_world w3 s2, Throw e)
      | (w3, Ok response) =>
          match doTask_while pg (maxAttempts s1) 0 response (set_world w3 s2) with
          | (s4, Throw e) => (s4, Throw e)
          | (s4, Ok r) => doTask_finish (fst r) (snd r) s4
          end
      end
  end.
Proof.
  unfold doTask, bind at 1.
  destruct (ensure_page s) as [s1 [pg | e]]; [| reflexivity].
  unfold bind, log, sendMessage, emit, modify, in_world, get, bind. simpl.
  destruct (chat_sendMessage (TextMessage task) (world s1)) as [w3 [response | e]];
    reflexivity.
Qed.

Lemma doTask_finish_quiet (a : Z) (r : GenerateContentResponse) :
  frames (appends quiet) (doTask_finish (W := W) (Page := Page) (Browser := Browser) a r).
Proof. eapply frames_doTask_finish with (P := quiet); frame_side. Qed.

(** ** The budget bounds the iterations *)

(** C1. Whatever the model replies and however many action requests its
    replies hold, a call of [doTask] with [maxAttempts = N] enters the body
    of its [while] at most [N] times (never, when [N] is not positive). *)
Theorem doTask_enters_loop_body_at_most_maxAttempts_times (task : string) (s : Agent) :
  exists new : list Event,
    trace (fst (doTask task s)) = trace s ++ new /\
    (loop_bodies new <= Z.to_nat (maxAttempts s))%nat.
Proof.
  assert (G : grows (Z.to_nat (maxAttempts s)) s (fst (doTask task s))).
  { rewrite doTask_eq.
    destruct (ensure_page s) as [s1 [pg | e]] eqn:E1;
      apply ensure_page_quiet, appends_quiet_grows in E1.
    2: { simpl. destruct E1 as [Hm [new [Ht Hb]]]. split; [exact Hm |].
         exists new. split; [exact Ht | lia]. }
    assert (Hm1 : maxAttempts s1 = maxAttempts s) by apply E1.
    set (s2 := add_event (EvSend (TextMessage task))
                 (add_event (EvLog (LogTaskStarted task)) s1)).
    assert (G2 : grows 0 s s2).
    { change 0%nat with (0 + 0)%nat. eapply grows_trans; [exact E1 |].
      split; [reflexivity |].
      exists [EvLog (LogTaskStarted task); EvSend (TextMessage task)].
      split; [simpl; rewrite <- app_assoc; reflexivity | cbv; lia]. }
    cbv zeta. fold s2.
    destruct (chat_sendMessage (TextMessage task) (world s2)) as [w3 [response | e]].
    2: { simpl. destruct G2 as [Hm [new [Ht Hb]]]. split; [exact Hm |].
         exists new. split; [exact Ht | lia]. }
    destruct (doTask_while pg (maxAttempts s1) 0 response (set_world w3 s2))
      as [s4 [[a r'] | e]] eqn:E4;
      apply (doTask_while_trace pg _ _ _ _ _ _ _ eq_refl) in E4;
      destruct E4 as [Hm4 [new4 [Ht4 [_ [Hle4 _]]]]];
      rewrite Z.sub_0_r, Hm1 in Hle4.
    - simpl fst at 2. simpl snd.
      destruct (doTask_finish a r' s4) as [s5 o5] eqn:E5.
      apply doTask_finish_quiet, appends_quiet_grows in E5. simpl fst.
      replace (Z.to_nat (maxAttempts s)) with (0 + (Z.to_nat (maxAttempts s) + 0))%nat by lia.
      eapply grows_trans; [exact G2 |]. eapply grows_trans; [| exact E5].
      split; [exact Hm4 |]. exists new4. split; [exact Ht4 | exact Hle4].
    - simpl fst.
      replace (Z.to_nat (maxAttempts s)) with (0 + Z.to_nat (maxAttempts s))%nat by lia.
      eapply grows_trans; [exact G2 |].
      split; [exact Hm4 |]. exists new4. split; [exact Ht4 | exact Hle4]. }
  destruct G as [_ [new [Ht Hb]]]. exists new. auto.
Qed.

Lemma log_commentary_eq (r : GenerateContentResponse) (s : Agent) :
  log_commentary r s = (commentary_logged r s, Ok tt).
Proof.
  unfold commentary_logged, log_commentary.
  destruct (has_visible_text (candidates_text r)); reflexivity.
Qed.

Lemma commentary_logged_quiet (r : GenerateContentResponse) (s : Agent) :
  world (commentary_logged r s) = world s /\
  maxAttempts (commentary_logged r s) = maxAttempts s /\
  exists new, trace (commentary_logged r s) = trace s ++ new /\
              sent new = [] /\ examined new = [].
Proof.
  unfold commentary_logged, log_commentary.
  destruct (has_visible_text (candidates_text r)); simpl.
  - repeat split. eexists. repeat split.
  - repeat split. exists []. rewrite app_nil_r. repeat split.
Qed.

Lemma doTask_finish_eq (a : Z) (r : GenerateContentResponse) (s : Agent) :
  doTask_finish a r s = (finished a s, Ok (text r)).
Proof.
  unfold doTask_finish, finished, bind, get. simpl.
  destruct (a =? maxAttempts s); reflexivity.
Qed.

Lemma attempts_at_exit_finished (a : Z) (s : Agent) :
  attempts_at_exit (trace (finished a s)) = Some a.
Proof.
  unfold attempts_at_exit, finished. simpl. rewrite rev_unit. reflexivity.
Qed.

Lemma while_body_eq (pg : Page) (k : Z) (r : GenerateContentResponse) (s : Agent) :
  while_body pg k r s =
  process_reply pg r (commentary_logged r (add_event (EvLoopBody k r) s)).
Proof.
  unfold while_body, bind at 1 2. simpl.
  rewrite log_commentary_eq. reflexivity.
Qed.

Lemma while_body_no_calls (pg : Page) (k : Z) (r : GenerateContentResponse) (s : Agent) :
  no_calls r ->
  while_body pg k r s =
  (add_event (EvLog LogNoFunctionCalls)
     (commentary_logged r (add_event (EvLoopBody k r) s)), Ok Break).
Proof.
  intros Hnc. rewrite while_body_eq. unfold process_reply.
  destruct Hnc as [-> | ->]; reflexivity.
Qed.

Lemma while_body_malformed (pg : Page) (k : Z) (r : GenerateContentResponse) (s : Agent) :
  first_call_malformed r = true ->
  exists n,
    while_body pg k r s =
    (add_event (EvLog LogInvalidFunctionCall)
       (add_event (EvLog (LogProcessing n))
          (commentary_logged r (add_event (EvLoopBody k r) s))), Ok (Continue r)).
Proof.
  unfold first_call_malformed. intros Hm.
  destruct (functionCalls r) as [[| call rest] |] eqn:Hf; try discriminate.
  destruct (well_formed_call call) eqn:Hw; try discriminate.
  exists (List.length (call :: rest)).
  rewrite while_body_eq. unfold process_reply. rewrite Hf.
  unfold bind, log, emit, modify. simpl for_calls. rewrite Hw. reflexivity.
Qed.

Lemma finished_quiet (a : Z) (s : Agent) :
  world (finished a s) = world s /\
  exists new, trace (finished a s) = trace s ++ new /\
              sent new = [] /\ examined new = [].
Proof.
  unfold finished. destruct (a =? maxAttempts s); simpl.
  - split; [reflexivity |]. eexists. rewrite <- app_assoc. repeat split.
  - split; [reflexivity |]. eexists. repeat split.
Qed.

(** ** A reply without requests ends the task *)

(** C2, amended. When the first reply of the model holds no action request,
    [doTask] returns the text of that reply, and the attempts counter is 0
    when the loop is left: the body of the loop is entered once (not at all
    when [maxAttempts] is not positive) and left through [break], before
    [attempts++]. *)
Theorem doTask_first_reply_without_requests
    (task : string) (s s1 : Agent) (pg : Page) (w : W) (r : GenerateContentResponse) :
  ensure_page s = (s1, Ok pg) ->
  chat_sendMessage (TextMessage task) (world s1) = (w, Ok r) ->
  no_calls r ->
  exists s',
    doTask task s = (s', Ok (text r)) /\
    attempts_at_exit (trace s') = Some 0 /\
    exists new : list Event,
      trace s' = trace s1 ++ new /\
      loop_bodies new = if 0 <? maxAttempts s1 then 1%nat else 0%nat.
Proof.
  intros He Hc Hnc. rewrite doTask_eq, He. cbv zeta. simpl world. rewrite Hc.
  rewrite doTask_while_eq. destruct (0 <? maxAttempts s1).
  - rewrite (while_body_no_calls _ _ _ _ Hnc). simpl fst. simpl snd.
    rewrite doTask_finish_eq. eexists. split; [reflexivity |].
    split; [apply attempts_at_exit_finished |].
    match goal with |- context [finished 0 ?st] =>
      destruct (finished_quiet 0 st) as [_ [fin [Hfin [_ Hxf]]]] end.
    rewrite Hfin. simpl trace at 1.
    match goal with |- context [commentary_logged r ?st] =>
      destruct (commentary_logged_quiet r st) as [_ [_ [com [Hcom [_ Hxc]]]]] end.
    rewrite Hcom. simpl trace. repeat rewrite <- app_assoc.
    eexists. split; [reflexivity |].
    rewrite loop_bodies_examined. simpl. rewrite !examined_app, Hxc. simpl.
    rewrite Hxf. reflexivity.
  - simpl fst. simpl snd. rewrite doTask_finish_eq. eexists. split; [reflexivity |].
    split; [apply attempts_at_exit_finished |].
    match goal with |- context [finished 0 ?st] =>
      destruct (finished_quiet 0 st) as [_ [fin [Hfin [_ Hxf]]]] end.
    rewrite Hfin. simpl trace. repeat rewrite <- app_assoc.
    eexists. split; [reflexivity |].
    rewrite loop_bodies_examined. simpl. rewrite Hxf. reflexivity.
Qed.

Lemma dispatch_eq (pg : Page) (fn : string) (ps : list (string * value)) (s : Agent) :
  dispatch pg fn ps s =
  let s1 := add_event (EvLog (LogFunctionCall fn (VObj ps))) s in
  match callFunction pg fn (VObj ps) (world s) with
  | (w2, Throw e) => (set_world w2 s1, Throw e)
  | (w2, Ok result) =>
      let s3 := add_event (EvSend (FunctionResponseMessage fn result))
                  (add_event (EvLog (LogFunctionResult fn result)) (set_world w2 s1)) in
      match chat_sendMessage (FunctionResponseMessage fn result) w2 with
      | (w4, o) => (set_world w4 s3, o)
      end
  end.
Proof.
  unfold dispatch, bind, log, sendMessage, emit, modify, in_world, bind. simpl.
  destruct (callFunction pg fn (VObj ps) (world s)) as [w2 [result | e]]; simpl;
    [| reflexivity].
  destruct (chat_sendMessage (FunctionResponseMessage fn result) w2) as [w4 [r | e]];
    reflexivity.
Qed.

Lemma world_commentary_logged (r : GenerateContentResponse) (s : Agent) :
  world (commentary_logged r s) = world s.
Proof. apply commentary_logged_quiet. Qed.

Lemma maxAttempts_commentary_logged (r : GenerateContentResponse) (s : Agent) :
  maxAttempts (commentary_logged r s) = maxAttempts s.
Proof. apply commentary_logged_quiet. Qed.

(** ** One action, then "Done." *)

(** C3, amended. The model first asks for one action, which succeeds, and
    then answers "Done." without asking for anything: [doTask] returns
    "Done." and the attempts counter is 1 when the loop is left, the one
    time [attempts++] was reached. *)
Theorem doTask_one_action_then_done
    (task : string) (s s1 : Agent) (pg : Page) (call : FunctionCall)
    (functionName : string) (functionParams : list (string * value)) (result : value)
    (r1 r2 : GenerateContentResponse) (w2 w3 w4 : W) :
  ensure_page s = (s1, Ok pg) ->
  1 <= maxAttempts s1 ->
  chat_sendMessage (TextMessage task) (world s1) = (w2, Ok r1) ->
  functionCalls r1 = Some [call] ->
  well_formed_call call = Some (functionName, functionParams) ->
  callFunction pg functionName (VObj functionParams) w2 = (w3, Ok result) ->
  success_flag result = Some true ->
  chat_sendMessage (FunctionResponseMessage functionName result) w3 = (w4, Ok r2) ->
  no_calls r2 ->
  text r2 = Some "Done."%string ->
  exists s',
    doTask task s = (s', Ok (Some "Done."%string)) /\
    attempts_at_exit (trace s') = Some 1.
Proof.
  intros He HN Hc1 Hf Hw Hcall _ Hc2 Hnc Ht.
  rewrite doTask_eq, He. cbv zeta. simpl world. rewrite Hc1.
  rewrite doTask_while_eq. destruct (Z.ltb_spec 0 (maxAttempts s1)) as [_ | ?]; [| lia].
  rewrite while_body_eq. unfold process_reply. rewrite Hf.
  unfold bind at 1 2. unfold log, emit, modify. simpl for_calls. rewrite Hw.
  unfold bind at 1, attempt_call, try_catch. rewrite dispatch_eq. cbv zeta.
  simpl world. rewrite world_commentary_logged. simpl world. rewrite Hcall, Hc2.
  cbv iota beta. unfold ret. cbv iota beta. rewrite doTask_while_eq.
  destruct (0 + 1 <? maxAttempts s1).
  - rewrite (while_body_no_calls _ _ _ _ Hnc). cbv iota beta. simpl fst. simpl snd.
    rewrite doTask_finish_eq, Ht. eexists. split; [reflexivity |].
    apply attempts_at_exit_finished.
  - cbv iota beta. simpl fst. simpl snd.
    rewrite doTask_finish_eq, Ht. eexists. split; [reflexivity |].
    apply attempts_at_exit_finished.
Qed.

(** ** The attempts counter *)

(** C7, amended. An execution of the loop body that reaches [attempts++]
    increases the counter by exactly 1, however many action requests it
    processed: successive executions of the body find [attempts] at [k],
    [k + 1], [k + 2], ...  The execution that finds no action request leaves
    the loop through [break] and does not increase the counter.  So when the
    loop is left, [attempts] has grown by the number of executions of the
    body, less one when the loop was left through [break]. *)
Theorem attempts_counts_completed_bodies
    (pg : Page) (N k : Z) (r : GenerateContentResponse) (s : Agent) :
  exists new : list Event,
    trace (fst (doTask_while pg N k r s)) = trace s ++ new /\
    map fst (examined new) = counting_from k (loop_bodies new) /\
    match snd (doTask_while pg N k r s) with
    | Ok (a, r') =>
        (a < N /\ no_calls r' /\ a - k = Z.of_nat (loop_bodies new) - 1) \/
        (N <= a /\ a - k = Z.of_nat (loop_bodies new))
    | Throw _ => True
    end.
Proof.
  destruct (doTask_while pg N k r s) as [s' o] eqn:E.
  apply (doTask_while_trace pg N _ _ _ _ _ _ eq_refl) in E.
  destruct E as [_ [new [Ht [Hc [_ Ho]]]]].
  exists new. split; [exact Ht |]. split; [exact Hc |]. simpl.
  destruct o as [[a r'] | e]; [| exact I].
  destruct Ho as [[H1 [H2 H3]] | [H1 H2]]; [left | right].
  - split; [exact H1 |]. split; [exact H3 | lia].
  - split; [exact H1 | lia].
Qed.

(** ** No budget *)

(** C9. With [maxAttempts] set to [n <= 0], [doTask] still sends the task
    into the chat session, once and as its only message, never enters the
    body of its loop, leaves the browser alone, and returns the text of the
    reply to the task. *)
Theorem doTask_without_budget
    (n : Z) (task : string) (s0 s1 : Agent) (pg : Page) (w : W)
    (r : GenerateContentResponse) :
  n <= 0 ->
  ensure_page (fst (setMaxAttempts n s0)) = (s1, Ok pg) ->
  chat_sendMessage (TextMessage task) (world s1) = (w, Ok r) ->
  exists s',
    doTask task (fst (setMaxAttempts n s0)) = (s', Ok (text r)) /\
    world s' = w /\
    trace s' =
      trace s1 ++
      EvLog (LogTaskStarted task) :: EvSend (TextMessage task) ::
      (if n =? 0 then [EvLog (LogMaxAttemptsReached n)] else []) ++
      [EvLog (LogTaskCompleted 0 n)].
Proof.
  intros Hn He Hc.
  assert (Hm : maxAttempts s1 = n).
  { apply ensure_page_quiet in He. destruct He as [Hm _]. exact Hm. }
  rewrite doTask_eq, He. cbv zeta. simpl world. rewrite Hc.
  rewrite doTask_while_eq, Hm.
  destruct (Z.ltb_spec 0 n) as [? | _]; [lia |].
  simpl fst. simpl snd. rewrite doTask_finish_eq.
  eexists. split; [reflexivity |]. unfold finished. simpl maxAttempts. rewrite Hm.
  rewrite (Z.eqb_sym n 0).
  destruct (0 =? n); simpl; repeat rewrite <- app_assoc; split; reflexivity.
Qed.

(** ** A malformed first request *)

Lemma quiet_loop_body (j : Z) (r : GenerateContentResponse) :
  ~ quiet (EvLoopBody (Browser := Browser) j r).
Proof. unfold quiet. simpl. discriminate. Qed.

Lemma split_after_quiet (rest new pre post : list Event) (e : Event) :
  Forall quiet rest -> ~ quiet e ->
  rest ++ new = pre ++ e :: post ->
  exists pre', pre = rest ++ pre' /\ new = pre' ++ e :: post.
Proof.
  intros Hq He. revert pre. induction Hq as [| x rest Hx _ IH]; intros pre H.
  - exists pre. auto.
  - destruct pre as [| y pre0]; simpl in H; inversion H; subst.
    + contradiction.
    + destruct (IH _ H2) as [pre' [-> ->]]. exists pre'. auto.
Qed.

Lemma split_before_quiet (new fin pre post : list Event) (e : Event) :
  Forall quiet fin -> ~ quiet e ->
  new ++ fin = pre ++ e :: post ->
  exists post', post = post' ++ fin /\ new = pre ++ e :: post'.
Proof.
  intros Hq He. revert pre. induction new as [| x new IH]; intros pre H; simpl in H.
  - exfalso. rewrite H in Hq. apply Forall_app in Hq as [_ Hq].
    inversion Hq; subst. contradiction.
  - destruct pre as [| y pre0]; simpl in H; inversion H; subst.
    + exists new. auto.
    + destruct (IH _ H2) as [post' [-> ->]]. exists post'. auto.
Qed.

(** From a reply whose first request is malformed the loop runs the budget
    out, examining that reply every time and sending nothing. *)
Lemma doTask_while_malformed (pg : Page) (N : Z) (r : GenerateContentResponse) (n : nat) :
  first_call_malformed r = true ->
  forall (k : Z) (s : Agent),
  n = Z.to_nat (N - k) -> k <= N ->
  exists s' new,
    doTask_while pg N k r s = (s', Ok (N, r)) /\
    trace s' = trace s ++ new /\
    sent new = [] /\
    Forall (fun x => snd x = r) (examined new) /\
    List.length (examined new) = n.
Proof.
  intros Hm. induction n as [| n IH]; intros k s Hn Hk; rewrite doTask_while_eq.
  - destruct (Z.ltb_spec k N); [lia |]. assert (k = N) by lia. subst k.
    exists s, []. rewrite app_nil_r. simpl. auto.
  - destruct (Z.ltb_spec k N); [| lia].
    destruct (while_body_malformed pg k r s Hm) as [m ->].
    match goal with |- context [doTask_while pg N (k + 1) r ?st] =>
      destruct (IH (k + 1) st) as [s' [new [E [Ht [Hs [Hx Hl]]]]]]; [lia | lia |]
    end.
    match type of Ht with context [commentary_logged r ?st] =>
      destruct (commentary_logged_quiet r st) as [_ [_ [com [Hcom [Hsc Hxc]]]]] end.
    simpl trace in Ht. rewrite Hcom in Ht. simpl trace in Ht.
    repeat rewrite <- app_assoc in Ht. simpl in Ht.
    eexists. eexists. split; [exact E |]. split; [exact Ht |].
    simpl. rewrite !sent_app, !examined_app. simpl. rewrite Hsc, Hxc, Hs. simpl.
    split; [reflexivity |]. split; [constructor; [reflexivity | exact Hx] |].
    rewrite Hl. reflexivity.
Qed.

Lemma finished_trace (a : Z) (s : Agent) :
  exists fin, trace (finished a s) = trace s ++ fin /\ sent fin = [] /\ Forall quiet fin.
Proof.
  unfold finished. destruct (a =? maxAttempts s); simpl.
  - eexists. rewrite <- app_assoc. split; [reflexivity |]. split; [reflexivity |].
    repeat constructor.
  - eexists. split; [reflexivity |]. split; [reflexivity |]. repeat constructor.
Qed.

Lemma doTask_while_reaches_malformed (pg : Page) (N : Z) (n : nat) :
  forall (k : Z) (r : GenerateContentResponse) (s s' : Agent) o
         (pre post : list Event) (j : Z) (r0 : GenerateContentResponse),
  n = Z.to_nat (N - k) ->
  doTask_while pg N k r s = (s', o) ->
  trace s' = trace s ++ pre ++ EvLoopBody j r0 :: post ->
  first_call_malformed r0 = true ->
  o = Ok (N, r0) /\
  sent post = [] /\
  Forall (fun x => snd x = r0) (examined post) /\
  loop_bodies (pre ++ EvLoopBody j r0 :: post) = n.
Proof.
  induction n as [| n IH]; intros k r s s' o pre post j r0 Hn H Ht Hm.
  - (* no budget left: nothing is examined *)
    rewrite doTask_while_eq in H. destruct (Z.ltb_spec k N); [lia |].
    inversion H; subst. exfalso.
    rewrite <- (app_nil_r (trace s')) in Ht at 1. apply app_inv_head in Ht.
    destruct pre; discriminate.
  - destruct (first_call_malformed r) eqn:Hr.
    + (* the reply under examination is malformed itself *)
      destruct (doTask_while_malformed pg N r (S n) Hr k s Hn)
        as [s'' [new [E [Ht' [Hs [Hx Hl]]]]]]; [lia |].
      rewrite E in H. inversion H; subst s'' o. clear H.
      rewrite Ht' in Ht. apply app_inv_head in Ht. subst new.
      rewrite sent_app in Hs. simpl in Hs. apply app_eq_nil in Hs as [_ Hs].
      rewrite examined_app in Hx, Hl. simpl in Hx.
      apply Forall_app in Hx as [_ Hx]. inversion Hx as [| ? ? Hr0 Hx']. subst.
      simpl in *.
      rewrite loop_bodies_examined, examined_app. simpl. auto.
    + (* it is not: the malformed reply comes later *)
      rewrite doTask_while_eq in H. destruct (Z.ltb_spec k N); [| lia].
      destruct (while_body pg k r s) as [s1 [[| r1] | e]] eqn:Hb;
        apply while_body_trace in Hb as [_ [rest [Ht1 Hq]]].
      * inversion H; subst s1 o. exfalso.
        rewrite Ht1 in Ht. apply app_inv_head in Ht.
        destruct pre as [| x pre0]; simpl in Ht; inversion Ht; subst.
        -- congruence.
        -- apply Forall_app in Hq as [_ Hq]. inversion Hq; subst.
           eapply quiet_loop_body; eassumption.
      * pose proof H as H'.
        apply (doTask_while_trace pg N _ _ _ _ _ _ eq_refl) in H'.
        destruct H' as [_ [new' [Ht' _]]].
        rewrite Ht', Ht1, <- app_assoc in Ht. apply app_inv_head in Ht.
        destruct pre as [| x pre0]; simpl in Ht; inversion Ht as [[Hx Ht2]].
        { congruence. }
        subst x.
        apply split_after_quiet in Ht2 as [pre' [-> ->]];
          [| exact Hq | apply quiet_loop_body].
        destruct (IH (k + 1) r1 s1 s' o pre' post j r0) as [Ho [Hs [Hx Hl]]];
          [lia | exact H | exact Ht' | exact Hm |].
        split; [exact Ho |]. split; [exact Hs |]. split; [exact Hx |].
        rewrite loop_bodies_examined in *. simpl. rewrite <- app_assoc.
        rewrite examined_app, (examined_quiet _ Hq). simpl. rewrite Hl. reflexivity.
      * inversion H; subst s1 o. exfalso.
        rewrite Ht1 in Ht. apply app_inv_head in Ht.
        destruct pre as [| x pre0]; simpl in Ht; inversion Ht; subst.
        -- congruence.
        -- apply Forall_app in Hq as [_ Hq]. inversion Hq; subst.
           eapply quiet_loop_body; eassumption.
Qed.

(** C8. When [doTask] comes to examine a reply whose first action request
    lacks a name or its arguments, it sends no message from then on, every
    later execution of the loop body examines that same reply, the body is
    executed [maxAttempts] times in all, and [doTask] returns the text of
    that reply. *)
Theorem malformed_first_request_exhausts_budget
    (task : string) (s : Agent) (pre post : list Event)
    (j : Z) (r0 : GenerateContentResponse) :
  trace (fst (doTask task s)) = trace s ++ pre ++ EvLoopBody j r0 :: post ->
  first_call_malformed r0 = true ->
  snd (doTask task s) = Ok (text r0) /\
  sent post = [] /\
  Forall (fun x => snd x = r0) (examined post) /\
  loop_bodies (pre ++ EvLoopBody j r0 :: post) = Z.to_nat (maxAttempts s).
Proof.
  intros Ht Hm. rewrite doTask_eq in *.
  destruct (ensure_page s) as [s1 [pg | e]] eqn:E1;
    apply ensure_page_quiet in E1; destruct E1 as [Hm1 [q1 [Ht1 Hq1]]].
  2: { exfalso. simpl in Ht. rewrite Ht1 in Ht. apply app_inv_head in Ht.
       rewrite Ht in Hq1. apply Forall_app in Hq1 as [_ Hq1]. inversion Hq1; subst.
       eapply quiet_loop_body; eassumption. }
  cbv zeta in *. simpl world in *.
  remember (add_event (EvSend (TextMessage task))
              (add_event (EvLog (LogTaskStarted task)) s1)) as s2 eqn:Hs2.
  assert (Ht2 : trace s2 =
                trace s ++ q1 ++ [EvLog (LogTaskStarted task); EvSend (TextMessage task)]).
  { rewrite Hs2. simpl. rewrite Ht1, <- !app_assoc. reflexivity. }
  clear Hs2.
  assert (Hq2 : Forall quiet
                  (q1 ++ [EvLog (LogTaskStarted task); EvSend (TextMessage task)])).
  { apply Forall_app. split; [exact Hq1 | repeat constructor]. }
  destruct (chat_sendMessage (TextMessage task) (world s1)) as [w3 [r | e]].
  2: { exfalso. simpl in Ht. rewrite Ht2 in Ht. apply app_inv_head in Ht.
       rewrite Ht in Hq2. apply Forall_app in Hq2 as [_ Hq2]. inversion Hq2; subst.
       eapply quiet_loop_body; eassumption. }
  destruct (doTask_while pg (maxAttempts s1) 0 r (set_world w3 s2))
    as [s4 [[a r'] | e]] eqn:E4;
    pose proof E4 as E4';
    apply (doTask_while_trace pg _ _ _ _ _ _ _ eq_refl) in E4';
    destruct E4' as [_ [new4 [Ht4 _]]]; simpl trace in Ht4.
  - simpl fst in *. simpl snd in *. rewrite doTask_finish_eq in *.
    simpl fst in Ht. simpl snd.
    destruct (finished_trace a s4) as [fin [Htf [Hsf Hqf]]].
    rewrite Htf, Ht4, Ht2, <- !app_assoc in Ht. apply app_inv_head in Ht.
    rewrite app_assoc in Ht.
    apply split_after_quiet in Ht as [pre' [-> Ht]];
      [| exact Hq2 | apply quiet_loop_body].
    apply split_before_quiet in Ht as [post' [-> Hn4]];
      [| exact Hqf | apply quiet_loop_body].
    subst new4.
    destruct (doTask_while_reaches_malformed pg _ _ _ _ _ _ _ pre' post' j r0
                eq_refl E4) as [Ho [Hs [Hx Hl]]]; [exact Ht4 | exact Hm |].
    inversion Ho; subst a r'. simpl. split; [reflexivity |].
    split; [rewrite sent_app, Hs, Hsf; reflexivity |].
    split; [rewrite examined_app, (examined_quiet _ Hqf), app_nil_r; exact Hx |].
    rewrite <- app_assoc, loop_bodies_app, (loop_bodies_quiet _ Hq2).
    replace (pre' ++ EvLoopBody j r0 :: post' ++ fin)
      with ((pre' ++ EvLoopBody j r0 :: post') ++ fin)
      by (rewrite <- app_assoc; reflexivity).
    rewrite loop_bodies_app, (loop_bodies_quiet _ Hqf), Hl, Z.sub_0_r, Hm1. lia.
  - exfalso. simpl in Ht.
    rewrite Ht4, Ht2, <- !app_assoc in Ht. apply app_inv_head in Ht.
    rewrite app_assoc in Ht.
    apply split_after_quiet in Ht as [pre' [-> Ht]];
      [| exact Hq2 | apply quiet_loop_body].
    subst new4.
    destruct (doTask_while_reaches_malformed pg _ _ _ _ _ _ _ pre' post j r0
                eq_refl E4) as [Ho _]; [exact Ht4 | exact Hm |].
    discriminate.
Qed.

(** ** Requests that cannot be dispatched *)

Lemma for_calls_malformed (pg : Page) (pre post : list FunctionCall) (bad : FunctionCall) :
  Forall (fun c => well_formed_call c <> None) pre ->
  well_formed_call bad = None ->
  forall (r : GenerateContentResponse) (s : Agent),
  for_calls pg (pre ++ bad :: post) r s =
  match for_calls pg pre r s with
  | (s1, Ok r1) => (add_event (EvLog LogInvalidFunctionCall) s1, Ok r1)
  | (s1, Throw e) => (s1, Throw e)
  end.
Proof.
  intros Hpre Hbad. induction Hpre as [| c pre Hc _ IH]; intros r s; simpl.
  - rewrite Hbad. reflexivity.
  - destruct (well_formed_call c) as [[fn ps] |]; [| congruence].
    unfold bind.
    destruct (attempt_call pg fn ps s) as [s1 [r1 | e]]; [apply IH | reflexivity].
Qed.

(** C6. A request without a name or without arguments, anywhere in the
    batch of a reply: once the requests before it are processed, [doTask]
    writes the diagnostic to the transcript, leaves the requests after it
    alone, and goes on to the next iteration of the outer loop with the
    reply it then holds. *)
Theorem malformed_request_ends_batch_not_loop
    (pg : Page) (N k : Z) (r r1 : GenerateContentResponse) (s s1 : Agent)
    (pre post : list FunctionCall) (bad : FunctionCall) :
  k < N ->
  functionCalls r = Some (pre ++ bad :: post) ->
  Forall (fun c => well_formed_call c <> None) pre ->
  well_formed_call bad = None ->
  for_calls pg pre r
    (add_event (EvLog (LogProcessing (List.length (pre ++ bad :: post))))
       (commentary_logged r (add_event (EvLoopBody k r) s))) = (s1, Ok r1) ->
  while_body pg k r s = (add_event (EvLog LogInvalidFunctionCall) s1, Ok (Continue r1)) /\
  doTask_while pg N k r s =
  doTask_while pg N (k + 1) r1 (add_event (EvLog LogInvalidFunctionCall) s1).
Proof.
  intros Hk Hf Hpre Hbad Hfor.
  assert (Hb : while_body pg k r s =
               (add_event (EvLog LogInvalidFunctionCall) s1, Ok (Continue r1))).
  { rewrite while_body_eq. unfold process_reply. rewrite Hf.
    destruct (pre ++ bad :: post) as [| c l] eqn:Hl; [destruct pre; discriminate |].
    rewrite <- Hl in *. unfold bind at 1 2. unfold log, emit, modify.
    rewrite (for_calls_malformed pg pre post bad Hpre Hbad), Hfor. reflexivity. }
  split; [exact Hb |].
  rewrite doTask_while_eq, Hb. destruct (Z.ltb_spec k N); [reflexivity | lia].
Qed.

(** The [catch] at work on the request at the head of a batch. *)
Lemma dispatch_exception_becomes_message
    (pg : Page) (call : FunctionCall) (rest : list FunctionCall)
    (functionName : string) (functionParams : list (string * value))
    (response : GenerateContentResponse) (s s1 : Agent) (err : exn) :
  well_formed_call call = Some (functionName, functionParams) ->
  dispatch pg functionName functionParams s = (s1, Throw err) ->
  let errorMsg := ("Error calling function " ++ functionName ++ ": " ++ err)%string in
  let s2 := add_event (EvSend (TextMessage errorMsg))
              (add_event (EvLog (LogFunctionError errorMsg)) s1) in
  for_calls pg (call :: rest) response s =
  match chat_sendMessage (TextMessage errorMsg) (world s1) with
  | (w, Ok reply) => for_calls pg rest reply (set_world w s2)
  | (w, Throw err') => (set_world w s2, Throw err')
  end.
Proof.
  intros Hw Hd errorMsg s2. cbn [for_calls]. rewrite Hw.
  unfold bind at 1, attempt_call, try_catch. rewrite Hd.
  unfold report_error. change (error_message functionName err) with errorMsg.
  cbv zeta. unfold bind, log, sendMessage, emit, modify, in_world, bind.
  change (world (add_event (EvSend (TextMessage errorMsg))
                   (add_event (EvLog (LogFunctionError errorMsg)) s1)))
    with (world s1).
  fold s2.
  destruct (chat_sendMessage (TextMessage errorMsg) (world s1)) as [w [reply | err']];
    reflexivity.
Qed.

Lemma for_calls_app (pg : Page) (pre rest : list FunctionCall) :
  Forall (fun c => well_formed_call c <> None) pre ->
  forall (r : GenerateContentResponse) (s : Agent),
  for_calls pg (pre ++ rest) r s =
  match for_calls pg pre r s with
  | (s0, Ok r0) => for_calls pg rest r0 s0
  | (s0, Throw e) => (s0, Throw e)
  end.
Proof.
  intros Hpre. induction Hpre as [| c pre Hc _ IH]; intros r s.
  - reflexivity.
  - cbn [app for_calls]. destruct (well_formed_call c) as [[fn ps] |]; [| congruence].
    unfold bind. destruct (attempt_call pg fn ps s) as [s1 [r1 | e]]; [apply IH | reflexivity].
Qed.

(** C5, amended. When the dispatch of a request throws, [doTask] catches
    the exception, writes the diagnostic "Error calling function <name>:
    <error>" to the transcript and sends it as a plain message into the chat
    session.  When the session answers, the reply becomes the current
    reply, the rest of the batch is processed and the loop goes on: the
    exception is not raised again.  When the send of the diagnostic throws
    in its turn, that exception ends the loop and reaches the caller. *)
Theorem dispatch_exception_is_sent_to_the_model
    (pg : Page) (N k : Z) (r r0 : GenerateContentResponse) (s s0 s1 : Agent)
    (pre post : list FunctionCall) (call : FunctionCall)
    (functionName : string) (functionParams : list (string * value)) (err : exn) :
  k < N ->
  functionCalls r = Some (pre ++ call :: post) ->
  Forall (fun c => well_formed_call c <> None) pre ->
  well_formed_call call = Some (functionName, functionParams) ->
  for_calls pg pre r
    (add_event (EvLog (LogProcessing (List.length (pre ++ call :: post))))
       (commentary_logged r (add_event (EvLoopBody k r) s))) = (s0, Ok r0) ->
  dispatch pg functionName functionParams s0 = (s1, Throw err) ->
  let errorMsg := ("Error calling function " ++ functionName ++ ": " ++ err)%string in
  let s2 := add_event (EvSend (TextMessage errorMsg))
              (add_event (EvLog (LogFunctionError errorMsg)) s1) in
  match chat_sendMessage (TextMessage errorMsg) (world s1) with
  | (w, Ok reply) =>
      doTask_while pg N k r s =
      match for_calls pg post reply (set_world w s2) with
      | (s3, Ok r') => doTask_while pg N (k + 1) r' s3
      | (s3, Throw e) => (s3, Throw e)
      end
  | (w, Throw err') => doTask_while pg N k r s = (set_world w s2, Throw err')
  end.
Proof.
  intros Hk Hf Hpre Hw Hfor Hd errorMsg s2.
  pose proof (dispatch_exception_becomes_message pg call post functionName
                functionParams r0 s0 s1 err Hw Hd) as Hc.
  cbv zeta in Hc. fold errorMsg in Hc. fold s2 in Hc.
  assert (Hb : while_body pg k r s =
               match for_calls pg (call :: post) r0 s0 with
               | (s3, Ok r') => (s3, Ok (Continue r'))
               | (s3, Throw e) => (s3, Throw e)
               end).
  { rewrite while_body_eq. unfold process_reply. rewrite Hf.
    destruct (pre ++ call :: post) as [| c l] eqn:Hl; [destruct pre; discriminate |].
    rewrite <- Hl in *. unfold bind at 1 2. unfold log, emit, modify.
    rewrite (for_calls_app pg pre (call :: post) Hpre), Hfor.
    destruct (for_calls pg (call :: post) r0 s0) as [s3 [r' | e]]; reflexivity. }
  rewrite Hc in Hb.
  destruct (chat_sendMessage (TextMessage errorMsg) (world s1)) as [w [reply | err']];
    rewrite doTask_while_eq, Hb; (destruct (Z.ltb_spec k N); [| lia]).
  - destruct (for_calls pg post reply (set_world w s2)) as [s3 [r' | e]]; reflexivity.
  - reflexivity.
Qed.

End Loop.

Section Dispatcher.

Context {W Page Browser : Type} {host : Host W Page Browser}.

Ltac run_action :=
  unfold returns_result, try_catch, bind, ret; cbv beta;
  repeat match goal with
         | |- context [match ?x with _ => _ end] =>
             lazymatch x with
             | context [match _ with _ => _ end] => fail
             | _ => destruct x; cbv beta iota
             end
         end;
  do 3 eexists; split; reflexivity.

Lemma callGoto_returns (pg : Page) (url : value) (w : W) :
  returns_result (callGoto pg url w).
Proof. unfold callGoto, waitForNetworkIdle. run_action. Qed.

Lemma callClick_returns (pg : Page) (selector : value) (w : W) :
  returns_result (callClick pg selector w).
Proof. unfold callClick. run_action. Qed.

Lemma callType_returns (pg : Page) (selector txt : value) (w : W) :
  returns_result (callType pg selector txt w).
Proof. unfold callType. run_action. Qed.

Lemma callCheckSelector_returns (pg : Page) (selector : value) (w : W) :
  returns_result (callCheckSelector pg selector w).
Proof. unfold callCheckSelector. run_action. Qed.

Lemma callGetHtml_returns (pg : Page) (w : W) : returns_result (callGetHtml pg w).
Proof. unfold callGetHtml. run_action. Qed.

Lemma callCheckCurrentUrl_returns (pg : Page) (w : W) :
  returns_result (callCheckCurrentUrl pg w).
Proof. unfold callCheckCurrentUrl. run_action. Qed.

Lemma callScreenshot_returns (pg : Page) (path : value) (w : W) :
  returns_result (callScreenshot pg path w).
Proof. unfold callScreenshot. run_action. Qed.

Lemma callKeyPress_returns (pg : Page) (key : value) (w : W) :
  returns_result (callKeyPress pg key w).
Proof. unfold callKeyPress. run_action. Qed.

Lemma get_prop_defined (v : value) (key : string) :
  is_nullish v = false -> exists x, get_prop v key = Ok x.
Proof. destruct v; simpl; intros H; try discriminate; eexists; reflexivity. Qed.

Lemma callFunction_object_returns
    (pg : Page) (functionName : string) (fields : list (string * value)) (w : W) :
  returns_result (callFunction pg functionName (VObj fields) w).
Proof.
  unfold callFunction, bind, lift_outcome. cbn [get_prop].
  repeat match goal with
         | |- context [if String.eqb functionName ?n then _ else _] =>
             destruct (String.eqb functionName n)
         end;
    first [ apply callGoto_returns | apply callClick_returns | apply callType_returns
          | apply callCheckSelector_returns | apply callGetHtml_returns
          | apply callCheckCurrentUrl_returns | apply callScreenshot_returns
          | apply callKeyPress_returns
          | do 3 eexists; split; reflexivity ].
Qed.

(** What [doTask] hands to the dispatcher is an object, so the dispatcher
    returns: the [try] of [doTask] can only fail in the chat session, on the
    result of the action. *)
Lemma dispatch_throws_in_chat
    (pg : Page) (functionName : string) (functionParams : list (string * value))
    (s s1 : @ScraperAgent W Page Browser) (err : exn) :
  dispatch pg functionName functionParams s = (s1, Throw err) ->
  exists w2 result w4,
    callFunction pg functionName (VObj functionParams) (world s) = (w2, Ok result) /\
    chat_sendMessage (FunctionResponseMessage functionName result) w2 = (w4, Throw err).
Proof.
  rewrite dispatch_eq. cbv zeta.
  destruct (callFunction_object_returns pg functionName functionParams (world s))
    as [w2 [result [b [E _]]]].
  rewrite E.
  destruct (chat_sendMessage (FunctionResponseMessage functionName result) w2)
    as [w4 [r | e]] eqn:Ec; intros H; inversion H; subst.
  exists w2, result, w4. auto.
Qed.

(** ** The dispatcher *)

(** C4, amended. For a name outside its [switch], [callFunction] raises
    nothing: it returns the value [{ success: false, message: "Function not
    found" }] and leaves the browser alone.  For each of the eight names of
    the [switch], and parameters other than [undefined] and [null], it
    returns a value with a boolean [success]. *)
Theorem callFunction_returns_success_flag
    (pg : Page) (functionName : string) (functionParams : value) (w : W) :
  (recognized functionName = false ->
   callFunction pg functionName functionParams w =
   (w, Ok (VObj [("success", VBool false); ("message", VStr "Function not found")]))) /\
  (recognized functionName = true ->
   is_nullish functionParams = false ->
   exists w' result b,
     callFunction pg functionName functionParams w = (w', Ok result) /\
     success_flag result = Some b).
Proof.
  unfold recognized, action_names, callFunction. simpl existsb. split.
  - intros H. repeat (apply orb_false_elim in H; destruct H as [-> H]). reflexivity.
  - intros _ Hp.
    pose proof (get_prop_defined functionParams) as Hget.
    unfold bind, lift_outcome.
    repeat match goal with
           | |- context [if String.eqb functionName ?n then _ else _] =>
               destruct (String.eqb functionName n)
           | |- context [get_prop functionParams ?key] =>
               let x := fresh "x" in
               destruct (Hget key Hp) as [x ->]
           end;
      first [ apply callGoto_returns | apply callClick_returns | apply callType_returns
            | apply callCheckSelector_returns | apply callGetHtml_returns
            | apply callCheckCurrentUrl_returns | apply callScreenshot_returns
            | apply callKeyPress_returns
            | do 3 eexists; split; reflexivity ].
Qed.

End Dispatcher.

Section Lifecycle.

Context {W Page Browser : Type} {host : Host W Page Browser}.

Local Abbreviation Agent := (@ScraperAgent W Page Browser).
Local Abbreviation Event := (@event Browser).
Local Abbreviation open := (fun e : @event Browser => is_close e = false).

Lemma undisturbed_refl (s : Agent) : undisturbed s s.
Proof. split; [apply same_handles_refl | apply appends_refl]. Qed.

Lemma undisturbed_trans (s1 s2 s3 : Agent) :
  undisturbed s1 s2 -> undisturbed s2 s3 -> undisturbed s1 s3.
Proof.
  intros [H1 H2] [H3 H4].
  split; [eapply same_handles_trans | eapply appends_trans]; eassumption.
Qed.

Lemma undisturbed_world (w : W) (s : Agent) : undisturbed s (set_world w s).
Proof. split; [split; reflexivity | apply appends_world]. Qed.

Lemma undisturbed_event (e : Event) (s : Agent) :
  open e -> undisturbed s (add_event e s).
Proof. intros He. split; [split; reflexivity | apply appends_event, He]. Qed.

Ltac undisturbed_side :=
  first [ apply undisturbed_refl | apply undisturbed_trans | apply undisturbed_world
        | apply undisturbed_event | reflexivity ].

Lemma while_body_undisturbed (pg : Page) (k : Z) (r : GenerateContentResponse) :
  frames undisturbed (while_body (host := host) pg k r).
Proof.
  unfold while_body.
  apply (frames_bind undisturbed); try undisturbed_side.
  { eapply frames_emit with (P := open); try undisturbed_side. }
  intros _. apply (frames_bind undisturbed); try undisturbed_side.
  { eapply frames_log_commentary with (P := open); undisturbed_side. }
  intros _. eapply frames_process_reply with (P := open); undisturbed_side.
Qed.

Lemma doTask_while_undisturbed (pg : Page) (N : Z) (n : nat) :
  forall (k : Z) (r : GenerateContentResponse),
  n = Z.to_nat (N - k) ->
  frames undisturbed (doTask_while (host := host) pg N k r).
Proof.
  induction n as [| n IH]; intros k r Hn s s' o H;
    rewrite doTask_while_eq in H; destruct (Z.ltb_spec k N); try lia;
    try (inversion H; subst; apply undisturbed_refl).
  destruct (while_body pg k r s) as [s1 [[| r1] | e]] eqn:Hb;
    apply while_body_undisturbed in Hb.
  - inversion H; subst. exact Hb.
  - eapply undisturbed_trans; [exact Hb |]. eapply (IH (k + 1) r1); [lia | exact H].
  - inversion H; subst. exact Hb.
Qed.

(** Once the page is there, [doTask] leaves page and browser alone. *)
Lemma doTask_undisturbed (task : string) (s s1 : Agent) o :
  ensure_page s = (s1, o) -> undisturbed s1 (fst (doTask task s)).
Proof.
  intros He. rewrite doTask_eq, He. destruct o as [pg | e]; [| apply undisturbed_refl].
  cbv zeta. simpl world.
  set (s2 := add_event (EvSend (TextMessage task))
               (add_event (EvLog (LogTaskStarted task)) s1)).
  assert (H2 : undisturbed s1 s2).
  { eapply undisturbed_trans; apply undisturbed_event; reflexivity. }
  destruct (chat_sendMessage (TextMessage task) (world s1)) as [w3 [r | e]].
  2: { simpl. eapply undisturbed_trans; [exact H2 | apply undisturbed_world]. }
  assert (H3 : undisturbed s1 (set_world w3 s2)).
  { eapply undisturbed_trans; [exact H2 | apply undisturbed_world]. }
  destruct (doTask_while pg (maxAttempts s1) 0 r (set_world w3 s2))
    as [s4 [[a r'] | e]] eqn:E4;
    apply (doTask_while_undisturbed pg _ _ _ _ eq_refl) in E4.
  - simpl fst at 2. simpl snd. rewrite doTask_finish_eq. simpl fst.
    eapply undisturbed_trans; [exact H3 |]. eapply undisturbed_trans; [exact E4 |].
    unfold finished. destruct (a =? maxAttempts s4).
    + eapply undisturbed_trans; apply undisturbed_event; reflexivity.
    + apply undisturbed_event. reflexivity.
  - simpl. eapply undisturbed_trans; eassumption.
Qed.

Lemma cleanup_eq (s : Agent) :
  cleanup s =
  match browser s with
  | None => (s, Ok tt)
  | Some b =>
      let s1 := add_event (EvClose b) s in
      match browser_close b (world s) with
      | (w, Ok _) => (set_browser None (set_world w s1), Ok tt)
      | (w, Throw e) => (set_world w s1, Throw e)
      end
  end.
Proof.
  unfold cleanup, bind, get. cbv beta iota.
  destruct (browser s) as [b |]; [| reflexivity].
  unfold emit, modify, in_world. simpl.
  destruct (browser_close b (world s)) as [w [[] | e]]; reflexivity.
Qed.

Lemma ensure_page_present (s : Agent) (pg : Page) :
  page s = Some pg -> ensure_page s = (s, Ok pg).
Proof.
  intros Hp. unfold ensure_page, bind, get, ret. cbv beta iota. rewrite Hp.
  cbv beta iota. rewrite Hp. reflexivity.
Qed.

Lemma ensure_page_launched (s s1 : Agent) o :
  holds_launched_browser s -> ensure_page s = (s1, o) -> holds_launched_browser s1.
Proof.
  intros Hs. destruct (page s) as [pg |] eqn:Hp.
  - rewrite (ensure_page_present _ _ Hp). intros H. inversion H; subst. exact Hs.
  - unfold ensure_page, initialize, bind, in_world, emit, modify, get, ret, throw.
    cbv beta iota. rewrite Hp. cbv beta iota. rewrite ?Hp. cbv beta iota.
    destruct (chromium_launch (world s)) as [w1 [b | e]]; simpl.
    + destruct (browser_newPage b w1) as [w2 [pg | e]]; simpl;
        intros H; inversion H; subst; intros b' Hb'; simpl in *;
        inversion Hb'; subst; apply in_or_app; right; left; reflexivity.
    + intros H. inversion H; subst. exact Hs.
Qed.

Lemma undisturbed_launched (s s' : Agent) :
  undisturbed s s' -> holds_launched_browser s -> holds_launched_browser s'.
Proof.
  intros [[_ Hb] [_ [new [Ht _]]]] Hs b Hb'. rewrite Ht. apply in_or_app. left.
  apply Hs. congruence.
Qed.

Lemma call_launched (m : method) (s : Agent) :
  holds_launched_browser s -> holds_launched_browser (call m s).
Proof.
  intros Hs. destruct m as [task | | n | pg]; simpl.
  - destruct (ensure_page s) as [s1 o] eqn:He.
    eapply undisturbed_launched; [eapply doTask_undisturbed; exact He |].
    eapply ensure_page_launched; eassumption.
  - rewrite cleanup_eq. destruct (browser s) as [b |] eqn:Hb; [| exact Hs].
    cbv zeta. destruct (browser_close b (world s)) as [w [[] | e]]; simpl.
    + intros b' Hb'. discriminate.
    + intros b' Hb'. simpl in *. apply in_or_app. left. apply Hs. congruence.
  - exact Hs.
  - exact Hs.
Qed.

Lemma closed_app (t1 t2 : list Event) : closed (t1 ++ t2) = closed t1 ++ closed t2.
Proof.
  induction t1 as [| e t1 IH]; simpl; [reflexivity |].
  destruct e; simpl; rewrite ?IH; reflexivity.
Qed.

Lemma closed_open (t : list Event) : Forall open t -> closed t = [].
Proof.
  induction 1 as [| e t He _ IH]; simpl; [reflexivity |].
  destruct e; simpl in *; try discriminate; exact IH.
Qed.

Lemma call_injected (m : method) (s : Agent) :
  page s <> None -> browser s = None ->
  page (call m s) <> None /\ browser (call m s) = None /\
  closed (trace (call m s)) = closed (trace s).
Proof.
  intros Hp Hb. destruct m as [task | | n | pg]; simpl.
  - destruct (page s) as [pg |] eqn:Hpg; [| congruence].
    pose proof (doTask_undisturbed task s s _ (ensure_page_present _ _ Hpg))
      as [[Hp' Hb'] [_ [new [Ht Hn]]]].
    rewrite Hp', Hb', Ht, closed_app, (closed_open _ Hn), app_nil_r, Hpg. auto.
  - rewrite cleanup_eq, Hb. simpl. auto.
  - auto.
  - split; [discriminate | auto].
Qed.

(** ** The browser and the page *)

(** C10, amended. [cleanup] never touches the page field.  It closes a
    browser exactly when the browser field is set, and empties the field
    once the close has returned.  The field is only ever set by
    [initialize], to the browser it launched.  So an agent whose page was
    injected, by the constructor or by [overridePage], while it had no
    browser, never gets one, whatever is called on it afterwards, and its
    [cleanup] closes nothing. *)
Theorem cleanup_closes_the_launched_browser :
  (forall s : Agent, page (fst (cleanup s)) = page s) /\
  (forall s : Agent, browser s = None -> cleanup s = (s, Ok tt)) /\
  (forall (s : Agent) (b : Browser),
     browser s = Some b ->
     trace (fst (cleanup s)) = trace s ++ [EvClose b] /\
     (snd (cleanup s) = Ok tt -> browser (fst (cleanup s)) = None)) /\
  (forall (w : W) (pg : option Page) (ms : list method),
     holds_launched_browser (calls ms (new_ScraperAgent w pg : Agent))) /\
  (forall (s : Agent) (ms : list method),
     page s <> None -> browser s = None ->
     browser (calls ms s) = None /\ closed (trace (calls ms s)) = closed (trace s)).
Proof.
  split; [| split; [| split; [| split]]].
  - intros s. rewrite cleanup_eq. destruct (browser s) as [b |]; [| reflexivity].
    cbv zeta. destruct (browser_close b (world s)) as [w [[] | e]]; reflexivity.
  - intros s Hb. rewrite cleanup_eq, Hb. reflexivity.
  - intros s b Hb. rewrite cleanup_eq, Hb. cbv zeta.
    destruct (browser_close b (world s)) as [w [[] | e]]; simpl;
      (split; [reflexivity |]); [reflexivity | discriminate].
  - intros w pg ms. unfold calls.
    assert (H0 : holds_launched_browser (new_ScraperAgent w pg : Agent))
      by (intros b Hb; discriminate).
    revert H0. generalize (new_ScraperAgent w pg : Agent).
    induction ms as [| m ms IH]; intros s Hs; simpl; [exact Hs |].
    apply IH, call_launched, Hs.
  - intros s ms. revert s. unfold calls.
    induction ms as [| m ms IH]; intros s Hp Hb; simpl; [auto |].
    destruct (call_injected m s Hp Hb) as [Hp' [Hb' Hc']].
    destruct (IH _ Hp' Hb') as [H1 H2]. split; [exact H1 | congruence].
Qed.

End Lifecycle.

(** * The properties on the scripted host *)

Lemma doTask_first_reply_without_requests_witness :
  exists s',
    doTask "hi" (new_ScraperAgent [Ok (text_reply "Hello")] None) =
    (s', Ok (Some "Hello"%string)) /\
    attempts_at_exit (trace s') = Some 0 /\
    exists new : list (@event nat),
      trace s' = [EvLaunch 1%nat] ++ new /\ loop_bodies new = 1%nat.
Proof.
  exact (doTask_first_reply_without_requests (host := scripted_host)
           "hi" (new_ScraperAgent [Ok (text_reply "Hello")] None)
           (fst (ensure_page (new_ScraperAgent [Ok (text_reply "Hello")] None)))
           2%nat [] (text_reply "Hello") eq_refl eq_refl (or_introl eq_refl)).
Defined.

(** C2 as stated fails: the first reply holds no request, [doTask] returns
    its text, and the attempts counter is 0 at exit, not 1. *)
Lemma first_reply_without_requests_counter_is_not_1 :
  let s := new_ScraperAgent [Ok (text_reply "Hello")] (Some 7%nat) in
  chat_sendMessage (TextMessage "hi") (world s) = ([], Ok (text_reply "Hello")) /\
  functionCalls (text_reply "Hello") = None /\
  snd (doTask "hi" s) = Ok (Some "Hello"%string) /\
  attempts_at_exit (trace (fst (doTask "hi" s))) = Some 0 /\
  attempts_at_exit (trace (fst (doTask "hi" s))) <> Some 1.
Proof.
  cbv zeta. repeat split; try reflexivity.
  vm_compute. discriminate.
Qed.

Lemma doTask_one_action_then_done_witness :
  exists s',
    doTask "navigate to example.com" (new_ScraperAgent navigate_then_done (Some 7%nat)) =
    (s', Ok (Some "Done."%string)) /\
    attempts_at_exit (trace s') = Some 1.
Proof.
  apply (doTask_one_action_then_done (host := scripted_host)
           "navigate to example.com" (new_ScraperAgent navigate_then_done (Some 7%nat))
           (new_ScraperAgent navigate_then_done (Some 7%nat)) 7%nat
           goto_example "goto" [("url", VStr "https://example.com")]
           (VObj [("success", VBool true); ("html", VStr "<html></html>")])
           (calls_reply [goto_example]) (text_reply "Done.")
           [Ok (text_reply "Done.")] [Ok (text_reply "Done.")] []).
  - reflexivity.
  - simpl. lia.
  - reflexivity.
  - reflexivity.
  - reflexivity.
  - reflexivity.
  - reflexivity.
  - reflexivity.
  - left. reflexivity.
  - reflexivity.
Defined.

(** C3 as stated fails: in the scenario of the specification [doTask]
    returns "Done." with the attempts counter at 1, not 2. *)
Lemma navigate_then_done_counter_is_not_2 :
  let s := new_ScraperAgent navigate_then_done (Some 7%nat) in
  snd (doTask "navigate to example.com" s) = Ok (Some "Done."%string) /\
  sent (trace (fst (doTask "navigate to example.com" s))) =
    [TextMessage "navigate to example.com";
     FunctionResponseMessage "goto"
       (VObj [("success", VBool true); ("html", VStr "<html></html>")])] /\
  attempts_at_exit (trace (fst (doTask "navigate to example.com" s))) = Some 1 /\
  attempts_at_exit (trace (fst (doTask "navigate to example.com" s))) <> Some 2.
Proof.
  cbv zeta. repeat split; try reflexivity.
  vm_compute. discriminate.
Qed.

Lemma callFunction_returns_success_flag_witness :
  callFunction (host := scripted_host) 7%nat "navigate" VUndefined [] =
    ([], Ok (VObj [("success", VBool false); ("message", VStr "Function not found")])) /\
  exists w' result b,
    callFunction (host := scripted_host) 7%nat "goto"
      (VObj [("url", VStr "https://example.com")]) [] = (w', Ok result) /\
    success_flag result = Some b.
Proof.
  split.
  - apply (callFunction_returns_success_flag (host := scripted_host)
             7%nat "navigate" VUndefined []). reflexivity.
  - apply (callFunction_returns_success_flag (host := scripted_host)
             7%nat "goto" (VObj [("url", VStr "https://example.com")]) []);
      reflexivity.
Defined.

(** C4 as stated fails: "navigate" is not a name of the [switch], and the
    dispatcher returns a value for it instead of raising. *)
Lemma unknown_action_returns_instead_of_raising :
  recognized "navigate" = false /\
  callFunction (host := scripted_host) 7%nat "navigate"
    (VObj [("url", VStr "https://example.com")]) [] =
  ([], Ok (VObj [("success", VBool false); ("message", VStr "Function not found")])) /\
  forall e,
    snd (callFunction (host := scripted_host) 7%nat "navigate"
           (VObj [("url", VStr "https://example.com")]) []) <> Throw e.
Proof.
  split; [reflexivity |]. split; [reflexivity |]. intros e. vm_compute. discriminate.
Qed.

(** A chat session that fails on the result of an action and answers the
    diagnostic that follows. *)
Lemma dispatch_exception_is_sent_to_the_model_witness :
  let s := @new_ScraperAgent Script nat nat
             [Throw "Error: fetch failed"; Ok (text_reply "sorry")] (Some 7%nat) in
  exists s',
    doTask_while 7%nat 50 0 (calls_reply [click_go]) s = (s', Ok (0 + 1, text_reply "sorry")) /\
    sent (trace s') =
      [FunctionResponseMessage "click" (VObj [("success", VBool true)]);
       TextMessage "Error calling function click: Error: fetch failed"].
Proof.
  cbv zeta.
  pose (s := @new_ScraperAgent Script nat nat
               [Throw "Error: fetch failed"; Ok (text_reply "sorry")] (Some 7%nat)).
  pose (s0 := add_event (EvLog (LogProcessing 1))
                (commentary_logged (calls_reply [click_go])
                   (add_event (EvLoopBody 0 (calls_reply [click_go])) s))).
  assert (Hd : dispatch 7%nat "click" [("selector", VStr "#go")] s0 =
               (fst (dispatch 7%nat "click" [("selector", VStr "#go")] s0),
                Throw "Error: fetch failed")) by reflexivity.
  pose proof (dispatch_exception_is_sent_to_the_model (host := scripted_host)
                7%nat 50 0 (calls_reply [click_go]) (calls_reply [click_go])
                s s0 (fst (dispatch 7%nat "click" [("selector", VStr "#go")] s0))
                [] [] click_go "click" [("selector", VStr "#go")] "Error: fetch failed"
                ltac:(lia) eq_refl (Forall_nil _) eq_refl eq_refl Hd) as E.
  cbv zeta in E.
  change (chat_sendMessage
            (TextMessage ("Error calling function " ++ "click" ++ ": " ++ "Error: fetch failed"))
            (world (fst (dispatch 7%nat "click" [("selector", VStr "#go")] s0))))
    with (@nil (outcome GenerateContentResponse), Ok (text_reply "sorry")) in E.
  cbv iota beta in E. cbn [for_calls] in E. unfold ret in E. cbv beta iota in E.
  fold s. rewrite E. rewrite doTask_while_eq.
  change (0 + 1 <? 50) with true. cbv iota.
  rewrite (while_body_no_calls (host := scripted_host) 7%nat (0 + 1)
             (text_reply "sorry") _ (or_introl eq_refl)).
  eexists. split; reflexivity.
Defined.

(** C5 as stated fails: the chat session fails on the result of the click,
    [doTask] catches that, sends the diagnostic, and the session fails
    again: no reply is captured and the exception reaches the caller. *)
Lemma failed_diagnostic_reaches_the_caller :
  let s := @new_ScraperAgent Script nat nat
             [Ok (calls_reply [click_go]); Throw "Error: fetch failed";
              Throw "Error: fetch failed"] (Some 7%nat) in
  sent (trace (fst (doTask "hi" s))) =
    [TextMessage "hi";
     FunctionResponseMessage "click" (VObj [("success", VBool true)]);
     TextMessage "Error calling function click: Error: fetch failed"] /\
  snd (doTask "hi" s) = Throw "Error: fetch failed" /\
  forall t, snd (doTask "hi" s) <> Ok t.
Proof.
  cbv zeta. split; [reflexivity |]. split; [reflexivity |].
  intros t. vm_compute. discriminate.
Qed.

Lemma malformed_request_ends_batch_not_loop_witness :
  let r := calls_reply [click_go; nameless_call; goto_example] in
  let s := new_ScraperAgent [Ok (text_reply "Clicked.")] (Some 7%nat) in
  let s1 := fst (for_calls 7%nat [click_go] r
                   (add_event (EvLog (LogProcessing 3))
                      (commentary_logged r (add_event (EvLoopBody 0 r) s)))) in
  (while_body 7%nat 0 r s =
     (add_event (EvLog LogInvalidFunctionCall) s1, Ok (Continue (text_reply "Clicked."))) /\
   doTask_while 7%nat 50 0 r s =
   doTask_while 7%nat 50 (0 + 1) (text_reply "Clicked.")
     (add_event (EvLog LogInvalidFunctionCall) s1)) /\
  sent (trace s1) = [FunctionResponseMessage "click" (VObj [("success", VBool true)])].
Proof.
  cbv zeta. split; [| reflexivity].
  apply (malformed_request_ends_batch_not_loop (host := scripted_host)
           7%nat 50 0
           (calls_reply [click_go; nameless_call; goto_example])
           (text_reply "Clicked.")
           (new_ScraperAgent [Ok (text_reply "Clicked.")] (Some 7%nat))
           _ [click_go] [goto_example] nameless_call).
  - lia.
  - reflexivity.
  - repeat constructor. discriminate.
  - reflexivity.
  - reflexivity.
Defined.

Lemma malformed_first_request_exhausts_budget_witness :
  let r := calls_reply [nameless_call; click_go] in
  let s := set_maxAttempts 3 (new_ScraperAgent [Ok r] (Some 7%nat)) in
  snd (doTask "hi" s) = Ok (text r) /\
  sent (skipn 3 (trace (fst (doTask "hi" s)))) = [] /\
  Forall (fun x => snd x = r) (examined (skipn 3 (trace (fst (doTask "hi" s))))) /\
  loop_bodies (trace (fst (doTask "hi" s))) = 3%nat.
Proof.
  exact (malformed_first_request_exhausts_budget (host := scripted_host)
           "hi"
           (set_maxAttempts 3
              (new_ScraperAgent [Ok (calls_reply [nameless_call; click_go])] (Some 7%nat)))
           [EvLog (LogTaskStarted "hi"); EvSend (TextMessage "hi")]
           (skipn 3
              (trace (fst (doTask "hi"
                 (set_maxAttempts 3
                    (new_ScraperAgent [Ok (calls_reply [nameless_call; click_go])]
                       (Some 7%nat)))))))
           0 (calls_reply [nameless_call; click_go]) eq_refl eq_refl).
Defined.

Lemma doTask_without_budget_witness :
  exists s',
    doTask "hi" (fst (setMaxAttempts (-1)
                        (new_ScraperAgent [Ok (calls_reply [click_go])] (Some 7%nat)))) =
    (s', Ok None) /\
    world s' = [] /\
    trace s' = [EvLog (LogTaskStarted "hi"); EvSend (TextMessage "hi");
                EvLog (LogTaskCompleted 0 (-1))].
Proof.
  exact (doTask_without_budget (host := scripted_host)
           (-1) "hi" (new_ScraperAgent [Ok (calls_reply [click_go])] (Some 7%nat))
           (set_maxAttempts (-1)
              (new_ScraperAgent [Ok (calls_reply [click_go])] (Some 7%nat)))
           7%nat [] (calls_reply [click_go])
           ltac:(lia) eq_refl eq_refl).
Defined.

(** C7 as stated fails: the body of the loop is executed once, on a reply
    without requests, and the attempts counter is 0 before and after. *)
Lemma loop_body_on_reply_without_requests_keeps_counter :
  let s := new_ScraperAgent [] (Some 7%nat) in
  let run := doTask_while 7%nat 50 0 (text_reply "Hello") s in
  examined (trace (fst run)) = [(0, text_reply "Hello")] /\
  snd run = Ok (0, text_reply "Hello") /\
  snd run <> Ok (0 + 1, text_reply "Hello").
Proof.
  cbv zeta. split; [reflexivity |]. split; [reflexivity |].
  vm_compute. discriminate.
Qed.

Lemma cleanup_closes_the_launched_browser_witness :
  let injected := new_ScraperAgent [Ok (text_reply "Hello")] (Some 7%nat) in
  let launched := fst (doTask "hi" (new_ScraperAgent [Ok (text_reply "Hello")] None)) in
  page (fst (cleanup launched)) = page launched /\
  cleanup injected = (injected, Ok tt) /\
  (trace (fst (cleanup launched)) = trace launched ++ [EvClose 1%nat] /\
   browser (fst (cleanup launched)) = None) /\
  (browser (calls [CallDoTask "hi"; CallCleanup] injected) = None /\
   closed (trace (calls [CallDoTask "hi"; CallCleanup] injected)) = []) /\
  holds_launched_browser
    (calls [CallDoTask "hi"] (new_ScraperAgent [Ok (text_reply "Hello")] None)).
Proof.
  cbv zeta.
  pose proof (cleanup_closes_the_launched_browser (host := scripted_host))
    as [Hpage [Hnone [Hsome [Hlaunched Hinjected]]]].
  split; [apply Hpage |]. split; [apply Hnone; reflexivity |].
  split; [| split; [| apply Hlaunched]].
  - assert (Hl : browser (fst (doTask "hi"
                                 (new_ScraperAgent [Ok (text_reply "Hello")] None))) =
                  Some 1%nat) by (vm_compute; reflexivity).
    destruct (Hsome _ 1%nat Hl) as [Ht Hb].
    split; [exact Ht | apply Hb; vm_compute; reflexivity].
  - apply (Hinjected (new_ScraperAgent [Ok (text_reply "Hello")] (Some 7%nat))
             [CallDoTask "hi"; CallCleanup]); [discriminate | reflexivity].
Defined.

(** C10 as stated fails: the agent launches its browser in a first task,
    a page is then injected with [overridePage], and [cleanup] closes the
    browser all the same. *)
Lemma cleanup_closes_after_overridePage :
  let s := calls [CallDoTask "hi"; CallOverridePage 7%nat]
             (new_ScraperAgent [Ok (text_reply "Hello")] None) in
  page s = Some 7%nat /\
  browser s = Some 1%nat /\
  closed (trace (fst (cleanup s))) = [1%nat] /\
  closed (trace (fst (cleanup s))) <> [].
Proof.
  cbv zeta. split; [reflexivity |]. split; [reflexivity |]. split; [reflexivity |].
  vm_compute. discriminate.
Qed.

(** * More of tools.ts and utils.ts *)

Section Actions.

Context {W Page Browser : Type} {host : Host W Page Browser}.

Ltac run_in H :=
  unfold try_catch, bind, lift_outcome, ret in H; cbv beta in H;
  repeat match type of H with
         | context [match ?x with _ => _ end] =>
             lazymatch x with
             | context [match _ with _ => _ end] => fail
             | _ => destruct x; cbv beta iota in H
             end
         end;
  inversion H; subst; clear H.

Lemma callFunction_goto (pg : Page) (params : value) :
  callFunction pg "goto" params =
  (url <- lift_outcome (get_prop params "url") ;; callGoto pg url).
Proof. reflexivity. Qed.

Lemma callFunction_click (pg : Page) (params : value) :
  callFunction pg "click" params =
  (selector <- lift_outcome (get_prop params "selector") ;; callClick pg selector).
Proof. reflexivity. Qed.

Lemma callFunction_type (pg : Page) (params : value) :
  callFunction pg "type" params =
  (selector <- lift_outcome (get_prop params "selector") ;;
   txt <- lift_outcome (get_prop params "text") ;;
   callType pg selector txt).
Proof. reflexivity. Qed.

Lemma callFunction_checkSelector (pg : Page) (params : value) :
  callFunction pg "checkSelector" params =
  (selector <- lift_outcome (get_prop params "selector") ;;
   callCheckSelector pg selector).
Proof. reflexivity. Qed.

Lemma callFunction_getHtml (pg : Page) (params : value) :
  callFunction pg "getHtml" params = callGetHtml pg.
Proof. reflexivity. Qed.

Lemma callFunction_checkCurrentUrl (pg : Page) (params : value) :
  callFunction pg "checkCurrentUrl" params = callCheckCurrentUrl pg.
Proof. reflexivity. Qed.

Lemma callFunction_screenshot (pg : Page) (params : value) :
  callFunction pg "screenshot" params =
  (path <- lift_outcome (get_prop params "path") ;; callScreenshot pg path).
Proof. reflexivity. Qed.

Lemma callFunction_keyPress (pg : Page) (params : value) :
  callFunction pg "keyPress" params =
  (key <- lift_outcome (get_prop params "key") ;; callKeyPress pg key).
Proof. reflexivity. Qed.

(** X1. For the six names of the [switch] whose action takes an argument,
    [callFunction] on [undefined] or [null] parameters throws the TypeError
    of the property access, before the browser is touched. *)
Theorem callFunction_nullish_parameters_throw
    (pg : Page) (functionName : string) (functionParams : value) (w : W) :
  reads_parameters functionName = true ->
  is_nullish functionParams = true ->
  exists key e,
    get_prop functionParams key = Throw e /\
    callFunction pg functionName functionParams w = (w, Throw e).
Proof.
  intros Hr Hn. unfold reads_parameters in Hr.
  apply existsb_exists in Hr as [n [Hin Heq]]. apply String.eqb_eq in Heq. subst n.
  simpl in Hin.
  destruct functionParams; try discriminate;
    repeat (destruct Hin as [<- | Hin]; [eexists; eexists; split; reflexivity |]);
    contradiction.
Qed.

(** X2. [getHtml] and [checkCurrentUrl] never look at their parameters:
    whatever is passed, even [undefined], the run is the same, and it
    returns a result with a boolean [success]. *)
Theorem callFunction_parameterless_actions_ignore_parameters
    (pg : Page) (functionName : string) (functionParams : value) (w : W) :
  functionName = "getHtml"%string \/ functionName = "checkCurrentUrl"%string ->
  callFunction pg functionName functionParams w =
  callFunction pg functionName VUndefined w /\
  returns_result (callFunction pg functionName functionParams w).
Proof.
  intros [-> | ->]; (split; [reflexivity |]).
  - apply callGetHtml_returns.
  - apply callCheckCurrentUrl_returns.
Qed.

Lemma get_prop_object (fields : list (string * value)) (key : string) :
  get_prop (VObj fields) key = Ok (argument fields key).
Proof. reflexivity. Qed.

Ltac run_keeping H :=
  unfold try_catch, bind, lift_outcome, ret in H; cbv beta iota in H;
  repeat match type of H with
         | context [match ?x with _ => _ end] =>
             lazymatch x with
             | context [match _ with _ => _ end] => fail
             | _ => let E := fresh "E" in destruct x eqn:E; cbv beta iota in H
             end
         end;
  repeat match goal with u : unit |- _ => destruct u end;
  inversion H; subst; clear H.

Ltac name_the_operation :=
  unfold action_raises;
  repeat first [ left; split; [reflexivity | solve [eauto 10]] | right ];
  try (split; [reflexivity | solve [eauto 10]]).

(** X3. A recognized action that reports [success: false] does so because
    a browser operation of its own threw, and [error] holds the text of
    that exception; [screenshot] alone never has an [error] field, failed
    or not. *)
Theorem failed_action_carries_error_except_screenshot
    (pg : Page) (functionName : string) (fields : list (string * value))
    (w w' : W) (result : value) :
  callFunction pg functionName (VObj fields) w = (w', Ok result) ->
  (functionName = "screenshot"%string -> field "error" result = None) /\
  (recognized functionName = true ->
   functionName <> "screenshot"%string ->
   success_flag result = Some false ->
   exists e,
     field "error" result = Some (VStr e) /\
     action_raises pg functionName fields w w' e).
Proof.
  intros H. split.
  - intros ->. rewrite callFunction_screenshot in H. unfold callScreenshot in H.
    cbn [get_prop] in H. run_in H; reflexivity.
  - intros Hr Hs Hf. unfold recognized in Hr.
    apply existsb_exists in Hr as [n [Hin Heq]]. apply String.eqb_eq in Heq. subst n.
    simpl in Hin.
    repeat (destruct Hin as [<- | Hin];
            [ first [ congruence
                    | rewrite ?callFunction_goto, ?callFunction_click,
                        ?callFunction_type, ?callFunction_checkSelector,
                        ?callFunction_getHtml, ?callFunction_checkCurrentUrl,
                        ?callFunction_keyPress in H;
                      rewrite ?get_prop_object in H;
                      unfold callGoto, callClick, callType, callCheckSelector,
                        callGetHtml, callCheckCurrentUrl, callKeyPress in H;
                      run_keeping H; simpl in Hf; try discriminate;
                      eexists; (split; [reflexivity |]); name_the_operation ]
            |]).
    contradiction.
Qed.

(** X4. A navigation whose network never goes idle is still a success:
    when [page.goto] returns, the wait for the idle network throws and the
    plain wait that replaces it returns, [goto] answers [success: true] with
    the content of the page. *)
Theorem callGoto_succeeds_when_network_stays_busy
    (pg : Page) (url : value) (w w1 w2 w3 w4 : W) (e : exn) (html : string) :
  page_goto pg url w = (w1, Ok tt) ->
  page_waitForLoadState pg "networkidle" 30000 w1 = (w2, Throw e) ->
  page_waitForTimeout pg 30000 w2 = (w3, Ok tt) ->
  page_content pg w3 = (w4, Ok html) ->
  callFunction pg "goto" (VObj [("url", url)]) w =
  (w4, Ok (VObj [("success", VBool true); ("html", VStr html)])).
Proof.
  intros Hg Hl Ht Hc.
  rewrite callFunction_goto.
  change (get_prop (VObj [("url", url)]) "url") with (Ok url).
  unfold callGoto, waitForNetworkIdle, try_catch, bind, lift_outcome, ret. cbv beta iota.
  rewrite Hg. cbv beta iota. rewrite Hl. cbv beta iota. rewrite Ht. cbv beta iota.
  rewrite Hc. reflexivity.
Qed.

(** X5. [waitForNetworkIdle] throws only what the plain wait threw, after
    the wait for the idle network had thrown too: the error of
    [page.waitForLoadState] never comes out, and without a page nothing is
    thrown at all. *)
Theorem waitForNetworkIdle_throws_only_from_waitForTimeout
    (page : option Page) (timeout : Z) (w w' : W) (e : exn) :
  waitForNetworkIdle page timeout w = (w', Throw e) ->
  exists p w1 e1,
    page = Some p /\
    page_waitForLoadState p "networkidle" timeout w = (w1, Throw e1) /\
    page_waitForTimeout p timeout w1 = (w', Throw e).
Proof.
  unfold waitForNetworkIdle, try_catch, ret. destruct page as [p |]; [| discriminate].
  destruct (page_waitForLoadState p "networkidle" timeout w) as [w1 [[] | e1]] eqn:El;
    [discriminate |].
  intros H. exists p, w1, e1. auto.
Qed.

End Actions.

(** * More of agent.ts and index.ts *)

Section TaskEvents.

Context {W Page Browser : Type} {host : Host W Page Browser}.

Local Abbreviation Agent := (@ScraperAgent W Page Browser).
Local Abbreviation Event := (@event Browser).

Variable P : Event -> Prop.
Hypothesis P_log : forall entry, P (EvLog entry).
Hypothesis P_send : forall m, P (EvSend m).
Hypothesis P_body : forall a r, P (EvLoopBody a r).

Ltac appends_side :=
  first [ apply appends_refl | apply appends_trans | apply appends_world
        | apply appends_event | apply P_log | apply P_send | apply P_body ].

Lemma while_body_appends (pg : Page) (k : Z) (r : GenerateContentResponse) :
  frames (appends P) (while_body (host := host) pg k r).
Proof.
  unfold while_body.
  apply (frames_bind (appends P)); try appends_side.
  { eapply frames_emit with (P := P); appends_side. }
  intros _. apply (frames_bind (appends P)); try appends_side.
  { eapply frames_log_commentary with (P := P); appends_side. }
  intros _. eapply frames_process_reply with (P := P); appends_side.
Qed.

Lemma doTask_while_appends (pg : Page) (N : Z) (n : nat) :
  forall (k : Z) (r : GenerateContentResponse),
  n = Z.to_nat (N - k) ->
  frames (appends P) (doTask_while (host := host) pg N k r).
Proof.
  induction n as [| n IH]; intros k r Hn s s' o H;
    rewrite doTask_while_eq in H; destruct (Z.ltb_spec k N); try lia;
    try (inversion H; subst; apply appends_refl).
  destruct (while_body pg k r s) as [s1 [[| r1] | e]] eqn:Hb;
    apply while_body_appends in Hb.
  - inversion H; subst. exact Hb.
  - eapply appends_trans; [exact Hb |]. eapply (IH (k + 1) r1); [lia | exact H].
  - inversion H; subst. exact Hb.
Qed.

(** What [doTask] does once it has a page. *)
Lemma doTask_appends (task : string) (s s1 : Agent) o :
  ensure_page s = (s1, o) -> appends P s1 (fst (doTask task s)).
Proof.
  intros He. rewrite doTask_eq, He. destruct o as [pg | e]; [| apply appends_refl].
  cbv zeta. simpl world.
  set (s2 := add_event (EvSend (TextMessage task))
               (add_event (EvLog (LogTaskStarted task)) s1)).
  assert (H2 : appends P s1 s2).
  { eapply appends_trans; apply appends_event; appends_side. }
  destruct (chat_sendMessage (TextMessage task) (world s1)) as [w3 [r | e]].
  2: { simpl. eapply appends_trans; [exact H2 | apply appends_world]. }
  assert (H3 : appends P s1 (set_world w3 s2)).
  { eapply appends_trans; [exact H2 | apply appends_world]. }
  destruct (doTask_while pg (maxAttempts s1) 0 r (set_world w3 s2))
    as [s4 [[a r'] | e]] eqn:E4;
    apply (doTask_while_appends pg _ _ _ _ eq_refl) in E4.
  - simpl fst at 2. simpl snd. rewrite doTask_finish_eq. simpl fst.
    eapply appends_trans; [exact H3 |]. eapply appends_trans; [exact E4 |].
    unfold finished. destruct (a =? maxAttempts s4).
    + eapply appends_trans; apply appends_event; appends_side.
    + apply appends_event. appends_side.
  - simpl. eapply appends_trans; eassumption.
Qed.

End TaskEvents.

Section Life.

Context {W Page Browser : Type} {host : Host W Page Browser}.

Local Abbreviation Agent := (@ScraperAgent W Page Browser).
Local Abbreviation Event := (@event Browser).

Lemma launched_app (t1 t2 : list Event) : launched (t1 ++ t2) = launched t1 ++ launched t2.
Proof.
  induction t1 as [| e t1 IH]; simpl; [reflexivity |].
  destruct e; simpl; rewrite ?IH; reflexivity.
Qed.

Lemma task_events_quiet (t : list Event) :
  Forall task_event t -> launched t = [] /\ closed t = [].
Proof.
  induction 1 as [| e t He _ [IH1 IH2]]; simpl; [auto |].
  destruct e; simpl in *; try contradiction; auto.
Qed.

(** Once it has a page, [doTask] neither launches nor closes a browser. *)
Lemma doTask_task_events (task : string) (s s1 : Agent) o :
  ensure_page s = (s1, o) -> appends task_event s1 (fst (doTask task s)).
Proof. apply doTask_appends; intros; exact I. Qed.

(** How [ensure_page] can end. *)
Lemma ensure_page_cases (s : Agent) :
  match ensure_page s with
  | (s', Ok pg) =>
      page s' = Some pg /\ maxAttempts s' = maxAttempts s /\
      ((page s = Some pg /\ s' = s) \/
       (page s = None /\
        exists b, browser s' = Some b /\ trace s' = trace s ++ [EvLaunch b]))
  | (s', Throw e) =>
      page s = None /\ page s' = None /\ maxAttempts s' = maxAttempts s /\
      ((browser s' = browser s /\ trace s' = trace s) \/
       (exists b, browser s' = Some b /\ trace s' = trace s ++ [EvLaunch b]))
  end.
Proof.
  destruct (page s) as [pg |] eqn:Hp.
  - rewrite (ensure_page_present _ _ Hp). auto.
  - unfold ensure_page, initialize, bind, in_world, emit, modify, get, ret, throw.
    cbv beta iota. rewrite Hp. cbv beta iota. rewrite ?Hp. cbv beta iota.
    destruct (chromium_launch (world s)) as [w1 [b | e]]; simpl.
    + destruct (browser_newPage b w1) as [w2 [pg | e]]; simpl.
      * split; [reflexivity |]. split; [reflexivity |]. right.
        split; [reflexivity |]. exists b. auto.
      * rewrite ?Hp. split; [reflexivity |]. split; [reflexivity |].
        split; [reflexivity |]. right. exists b. auto.
    + rewrite ?Hp. split; [reflexivity |]. split; [reflexivity |].
      split; [reflexivity |]. left. auto.
Qed.

(** X6. When [doTask] fails to get a page, so that it throws with the page
    still missing, it has sent no message and written nothing.  Either no
    browser was launched, or one was and the agent holds it: a [cleanup]
    then closes it. *)
Theorem doTask_without_page_leaves_browser_to_cleanup
    (task : string) (s s' : Agent) (e : exn) :
  doTask task s = (s', Throw e) ->
  page s' = None ->
  trace s' = trace s \/
  exists b,
    trace s' = trace s ++ [EvLaunch b] /\
    browser s' = Some b /\
    closed (trace (fst (cleanup s'))) = closed (trace s') ++ [b].
Proof.
  intros H Hp.
  pose proof (ensure_page_cases s) as Hc.
  destruct (ensure_page s) as [s1 [pg | e1]] eqn:He.
  - exfalso. destruct Hc as [Hp1 _].
    pose proof (doTask_undisturbed task s s1 _ He) as [[Hpage _] _].
    rewrite H in Hpage. simpl in Hpage. congruence.
  - rewrite doTask_eq, He in H. inversion H; subst s1 e1. clear H.
    destruct Hc as [_ [_ [_ [[_ Ht] | [b [Hb Ht]]]]]]; [left; exact Ht | right].
    exists b. split; [exact Ht |]. split; [exact Hb |].
    rewrite cleanup_eq, Hb. cbv zeta.
    destruct (browser_close b (world s')) as [w [[] | e']]; simpl;
      rewrite closed_app; reflexivity.
Qed.

Lemma call_keeps_page (m : method) (s : Agent) :
  page s <> None ->
  page (call m s) <> None /\ launched (trace (call m s)) = launched (trace s).
Proof.
  intros Hp. destruct m as [task | | n | pg]; simpl.
  - destruct (page s) as [pg |] eqn:Hpg; [| congruence].
    pose proof (ensure_page_present _ _ Hpg) as He.
    pose proof (doTask_undisturbed task s s _ He) as [[Hp' _] _].
    pose proof (doTask_task_events task s s _ He) as [_ [new [Ht Hn]]].
    rewrite Hp', Ht, launched_app, (proj1 (task_events_quiet _ Hn)), app_nil_r, Hpg.
    split; [discriminate | reflexivity].
  - rewrite cleanup_eq. destruct (browser s) as [b |]; [| auto].
    cbv zeta. destruct (browser_close b (world s)) as [w [[] | e]]; simpl;
      rewrite launched_app, app_nil_r; auto.
  - auto.
  - split; [discriminate | reflexivity].
Qed.

(** X7. An agent that has a page never launches a browser again, whatever
    is called on it: not even after [cleanup], which closes the browser and
    leaves the page of the closed browser in place for the next [doTask]. *)
Theorem agent_with_page_never_launches
    (s : Agent) (ms : list method) :
  page s <> None ->
  page (calls ms s) <> None /\
  launched (trace (calls ms s)) = launched (trace s).
Proof.
  revert s. unfold calls. induction ms as [| m ms IH]; intros s Hp; simpl; [auto |].
  destruct (call_keeps_page m s Hp) as [Hp' Hl].
  destruct (IH _ Hp') as [H1 H2]. split; [exact H1 | congruence].
Qed.

(** X8. A [cleanup] that returned has emptied the browser field: a second
    [cleanup] closes nothing and changes nothing. *)
Theorem cleanup_twice_closes_once (s s1 : Agent) :
  cleanup s = (s1, Ok tt) ->
  browser s1 = None /\ cleanup s1 = (s1, Ok tt).
Proof.
  rewrite cleanup_eq. intros H.
  assert (Hb : browser s1 = None).
  { destruct (browser s) as [b |] eqn:Hb.
    - cbv zeta in H. destruct (browser_close b (world s)) as [w [[] | e]];
        inversion H; subst; reflexivity.
    - inversion H; subst. exact Hb. }
  split; [exact Hb |]. rewrite cleanup_eq, Hb. reflexivity.
Qed.

Lemma call_maxAttempts (m : method) (s : Agent) :
  maxAttempts (call m s) =
  match m with CallSetMaxAttempts k => k | _ => maxAttempts s end.
Proof.
  destruct m as [task | | n | pg]; simpl; try reflexivity.
  - pose proof (ensure_page_cases s) as Hc.
    destruct (ensure_page s) as [s1 o] eqn:He.
    pose proof (doTask_task_events task s s1 _ He) as [Hm _].
    rewrite Hm. destruct o; [apply Hc | apply Hc].
  - rewrite cleanup_eq. destruct (browser s) as [b |]; [| reflexivity].
    cbv zeta. destruct (browser_close b (world s)) as [w [[] | e]]; reflexivity.
Qed.

(** X9. The budget belongs to [setMaxAttempts]: after any series of calls
    it is the argument of the last [setMaxAttempts] among them, or what it
    was before when there is none; no task, [cleanup] or [overridePage]
    changes it. *)
Theorem maxAttempts_is_the_last_one_set (ms : list method) (s : Agent) :
  maxAttempts (calls ms s) = budget_after ms (maxAttempts s).
Proof.
  revert s. unfold calls, budget_after.
  induction ms as [| m ms IH]; intros s; simpl; [reflexivity |].
  rewrite IH, call_maxAttempts. reflexivity.
Qed.

(** X10. [main] makes an agent without a page.  When its task returns, the
    agent has launched exactly one browser, and [main] closes that browser
    and no other.  When its task throws, [main] throws the same and closes
    nothing, launched or not. *)
Theorem main_closes_its_browser_when_the_task_returns (w : W) :
  match doTask main_task (@new_ScraperAgent W Page Browser w None) with
  | (s1, Ok _) =>
      exists b,
        launched (trace s1) = [b] /\
        closed (trace (fst (main w))) = [b] /\
        (snd (main w) = Ok tt -> browser (fst (main w)) = None)
  | (s1, Throw e) => main w = (s1, Throw e) /\ closed (trace s1) = []
  end.
Proof.
  unfold main, main_body, bind.
  pose proof (ensure_page_cases (@new_ScraperAgent W Page Browser w None)) as Hc.
  destruct (ensure_page (@new_ScraperAgent W Page Browser w None)) as [s0 o0] eqn:He.
  pose proof (doTask_task_events main_task _ _ _ He) as [_ [new [Ht Hn]]].
  pose proof (doTask_undisturbed main_task _ _ _ He) as [[_ Hb] _].
  apply task_events_quiet in Hn as [Hl Hcl].
  destruct (doTask main_task (@new_ScraperAgent W Page Browser w None)) as [s1 [t | e]] eqn:Hd;
    simpl fst in *.
  - destruct o0 as [pg | e0].
    2: { rewrite doTask_eq, He in Hd. discriminate. }
    destruct Hc as [_ [_ [[Hp _] | [_ [b [Hb0 Ht0]]]]]]; [discriminate |].
    simpl in Ht0. exists b.
    assert (Hl1 : launched (trace s1) = [b]).
    { rewrite Ht, launched_app, Hl, Ht0. reflexivity. }
    assert (Hc1 : closed (trace s1) = []).
    { rewrite Ht, closed_app, Hcl, Ht0. reflexivity. }
    split; [exact Hl1 |].
    rewrite cleanup_eq. rewrite Hb, Hb0. cbv zeta.
    destruct (browser_close b (world s1)) as [w' [[] | e']]; simpl;
      rewrite closed_app, Hc1; (split; [reflexivity |]);
      [reflexivity | discriminate].
  - split; [reflexivity |].
    rewrite Ht, closed_app, Hcl, app_nil_r.
    destruct o0 as [pg | e0].
    + destruct Hc as [_ [_ [[Hp _] | [_ [b [_ Ht0]]]]]]; [discriminate |].
      rewrite Ht0. reflexivity.
    + destruct Hc as [_ [_ [_ [[_ Ht0] | [b [_ Ht0]]]]]]; rewrite Ht0; reflexivity.
Qed.

End Life.

(** * More of the task loop *)

Section Protocol.

Context {W Page Browser : Type} {host : Host W Page Browser}.

Local Abbreviation Agent := (@ScraperAgent W Page Browser).
Local Abbreviation Event := (@event Browser).

Lemma well_formed_call_name (call : FunctionCall) (fn : string)
    (ps : list (string * value)) :
  well_formed_call call = Some (fn, ps) -> fn <> ""%string.
Proof.
  unfold well_formed_call.
  destruct (call_name call) as [n |]; [| discriminate].
  destruct (call_args call) as [a |]; [| discriminate].
  destruct (String.eqb_spec n ""); [discriminate |].
  intros H. inversion H; subst. assumption.
Qed.

Lemma dispatch_loop_events (pg : Page) (fn : string) (ps : list (string * value)) :
  fn <> ""%string -> frames (appends loop_event) (dispatch (host := host) pg fn ps).
Proof.
  intros Hfn s s' o H. rewrite dispatch_eq in H. cbv zeta in H.
  destruct (callFunction_object_returns pg fn ps (world s)) as [w2 [result [b [E Hb]]]].
  rewrite E in H.
  destruct (chat_sendMessage (FunctionResponseMessage fn result) w2) as [w4 o'].
  inversion H; subst. split; [reflexivity |].
  exists [EvLog (LogFunctionCall fn (VObj ps)); EvLog (LogFunctionResult fn result);
          EvSend (FunctionResponseMessage fn result)].
  split; [simpl; rewrite <- !app_assoc; reflexivity |].
  repeat constructor; [exact Hfn | exists b; exact Hb].
Qed.

Lemma report_error_loop_events (fn : string) (e : exn) :
  frames (appends loop_event) (report_error (host := host) fn e).
Proof.
  intros s s' o H.
  unfold report_error, bind, log, sendMessage, emit, modify, in_world, bind in H.
  cbv beta iota zeta in H. simpl world in H.
  destruct (chat_sendMessage (TextMessage (error_message fn e)) (world s)) as [w o'].
  inversion H; subst. split; [reflexivity |].
  exists [EvLog (LogFunctionError (error_message fn e));
          EvSend (TextMessage (error_message fn e))].
  split; [simpl; rewrite <- !app_assoc; reflexivity |].
  repeat constructor. exists fn, e. reflexivity.
Qed.

Lemma for_calls_loop_events (pg : Page) (batch : list FunctionCall)
    (r : GenerateContentResponse) :
  frames (appends loop_event) (for_calls (host := host) pg batch r).
Proof.
  revert r. induction batch as [| call rest IH]; intros r; simpl.
  - eapply frames_ret. apply appends_refl.
  - destruct (well_formed_call call) as [[fn ps] |] eqn:Hw.
    + apply (frames_bind (appends loop_event)); [apply appends_trans | | intros r'; apply IH].
      unfold attempt_call.
      apply (frames_try_catch (appends loop_event)); [apply appends_trans | |].
      * apply dispatch_loop_events. eapply well_formed_call_name; eassumption.
      * intros e. apply report_error_loop_events.
    + intros s s' o H. inversion H; subst. apply appends_event. exact I.
Qed.

Lemma while_body_loop_events (pg : Page) (k : Z) (r : GenerateContentResponse) :
  frames (appends loop_event) (while_body (host := host) pg k r).
Proof.
  intros s s' o H. rewrite while_body_eq in H.
  assert (H0 : appends loop_event s (commentary_logged r (add_event (EvLoopBody k r) s))).
  { eapply appends_trans;
      [apply (appends_event loop_event (EvLoopBody k r)); exact I |].
    unfold commentary_logged, log_commentary.
    destruct (has_visible_text (candidates_text r)); simpl.
    - apply appends_event. exact I.
    - apply appends_refl. }
  eapply appends_trans; [exact H0 |]. clear H0. revert H.
  generalize (commentary_logged r (add_event (EvLoopBody k r) s)). intros s0.
  unfold process_reply.
  destruct (functionCalls r) as [[| call rest] |].
  - intros H. inversion H; subst. apply appends_event. exact I.
  - apply (frames_bind (appends loop_event)); [apply appends_trans | |].
    + intros st st' o' H. inversion H; subst. apply appends_event. exact I.
    + intros _. apply (frames_bind (appends loop_event)); [apply appends_trans | |].
      * apply for_calls_loop_events.
      * intros r'. eapply frames_ret. apply appends_refl.
  - intros H. inversion H; subst. apply appends_event. exact I.
Qed.

Lemma doTask_while_loop_events (pg : Page) (N : Z) (n : nat) :
  forall (k : Z) (r : GenerateContentResponse),
  n = Z.to_nat (N - k) ->
  frames (appends loop_event) (doTask_while (host := host) pg N k r).
Proof.
  induction n as [| n IH]; intros k r Hn s s' o H;
    rewrite doTask_while_eq in H; destruct (Z.ltb_spec k N); try lia;
    try (inversion H; subst; apply appends_refl).
  destruct (while_body pg k r s) as [s1 [[| r1] | e]] eqn:Hb;
    apply while_body_loop_events in Hb.
  - inversion H; subst. exact Hb.
  - eapply appends_trans; [exact Hb |]. eapply (IH (k + 1) r1); [lia | exact H].
  - inversion H; subst. exact Hb.
Qed.

Lemma sent_loop_events (t : list Event) :
  Forall loop_event t -> Forall loop_message (sent t).
Proof.
  induction 1 as [| e t He _ IH]; simpl; [constructor |].
  destruct e; simpl in *; auto.
Qed.

Lemma loop_events_not_closing (t : list Event) :
  Forall loop_event t -> Forall (fun e => ~ closing_entry e) t.
Proof.
  apply Forall_impl. intros e He Hc. destruct e as [[] | | | |]; simpl in *; auto.
Qed.

Lemma ensure_page_trace (s : Agent) :
  exists new,
    trace (fst (ensure_page s)) = trace s ++ new /\
    sent new = [] /\ Forall (fun e => ~ closing_entry e) new.
Proof.
  pose proof (ensure_page_cases s) as Hc.
  destruct (ensure_page s) as [s1 [pg | e]]; simpl.
  - destruct Hc as [_ [_ [[_ ->] | [_ [b [_ ->]]]]]].
    + exists []. rewrite app_nil_r. auto.
    + exists [EvLaunch b]. repeat split. repeat constructor. simpl. auto.
  - destruct Hc as [_ [_ [_ [[_ ->] | [b [_ ->]]]]]].
    + exists []. rewrite app_nil_r. auto.
    + exists [EvLaunch b]. repeat split. repeat constructor. simpl. auto.
Qed.

(** X11. What [doTask] says to the model.  When it has or gets a page,
    it sends the task first, as it was given, and after it only results of
    actions, each under a non-empty name and with a boolean [success], and
    diagnostics of the form "Error calling function <name>: <error>".  When
    the page cannot be had, it sends nothing. *)
Theorem doTask_sends_task_then_results_and_diagnostics (task : string) (s : Agent) :
  exists new : list Event,
    trace (fst (doTask task s)) = trace s ++ new /\
    match snd (ensure_page s) with
    | Ok _ => exists rest, sent new = TextMessage task :: rest /\ Forall loop_message rest
    | Throw _ => sent new = []
    end.
Proof.
  destruct (ensure_page_trace s) as [new1 [Ht1 [Hs1 _]]].
  rewrite doTask_eq. destruct (ensure_page s) as [s1 [pg | e]]; simpl fst in Ht1;
    simpl snd.
  2: { exists new1. simpl. auto. }
  cbv zeta. simpl world.
  remember (add_event (EvSend (TextMessage task))
              (add_event (EvLog (LogTaskStarted task)) s1)) as s2 eqn:Hs2.
  assert (Ht2 : trace s2 =
                trace s ++ new1 ++ [EvLog (LogTaskStarted task); EvSend (TextMessage task)]).
  { rewrite Hs2. simpl. rewrite Ht1, <- !app_assoc. reflexivity. }
  clear Hs2.
  destruct (chat_sendMessage (TextMessage task) (world s1)) as [w3 [r | e]].
  2: { eexists. split; [simpl; exact Ht2 |]. exists [].
       rewrite sent_app, Hs1. simpl. auto. }
  destruct (doTask_while pg (maxAttempts s1) 0 r (set_world w3 s2))
    as [s4 [[a r'] | e]] eqn:E4;
    apply (doTask_while_loop_events pg _ _ _ _ eq_refl) in E4;
    destruct E4 as [_ [new4 [Ht4 Hl4]]]; simpl trace in Ht4;
    apply sent_loop_events in Hl4.
  - simpl fst at 2. simpl snd. rewrite doTask_finish_eq. simpl fst.
    destruct (finished_trace a s4) as [fin [Htf [Hsf _]]].
    eexists. split; [rewrite Htf, Ht4, Ht2, <- !app_assoc; reflexivity |].
    exists (sent new4).
    rewrite !sent_app, Hs1, Hsf, app_nil_r. simpl. auto.
  - eexists. split; [simpl; rewrite Ht4, Ht2, <- !app_assoc; reflexivity |].
    exists (sent new4). rewrite !sent_app, Hs1. simpl. auto.
Qed.

Lemma doTask_while_attempts (pg : Page) (N : Z) (n : nat) :
  forall (k a : Z) (r r' : GenerateContentResponse) (s s' : Agent),
  n = Z.to_nat (N - k) ->
  doTask_while pg N k r s = (s', Ok (a, r')) ->
  k <= a <= Z.max k N.
Proof.
  induction n as [| n IH]; intros k a r r' s s' Hn H;
    rewrite doTask_while_eq in H; destruct (Z.ltb_spec k N); try lia;
    try (inversion H; subst; lia).
  destruct (while_body pg k r s) as [s1 [[| r1] | e]]; try discriminate.
  - inversion H; subst. lia.
  - apply IH in H; lia.
Qed.

(** X12. A [doTask] that returns ends its transcript with "Task
    completed" and the attempts used, once; the attempts lie between 0 and
    the budget (0 for a budget below 0); and "Max attempts reached" stands
    before it exactly when the attempts equal the budget. *)
Theorem doTask_reports_attempts_within_budget
    (task : string) (s s' : Agent) (t : option string) :
  doTask task s = (s', Ok t) ->
  exists (new : list Event) (a : Z),
    trace s' =
      trace s ++ new ++
      (if a =? maxAttempts s then [EvLog (LogMaxAttemptsReached (maxAttempts s))] else []) ++
      [EvLog (LogTaskCompleted a (maxAttempts s))] /\
    0 <= a <= Z.max 0 (maxAttempts s) /\
    Forall (fun e => ~ closing_entry e) new.
Proof.
  intros H.
  destruct (ensure_page_trace s) as [new1 [Ht1 [_ Hc1]]].
  pose proof (ensure_page_cases s) as Hcases.
  rewrite doTask_eq in H. destruct (ensure_page s) as [s1 [pg | e]]; [| discriminate].
  assert (Hm1 : maxAttempts s1 = maxAttempts s) by apply Hcases. clear Hcases.
  simpl fst in Ht1. cbv zeta in H. simpl world in H.
  destruct (chat_sendMessage (TextMessage task) (world s1)) as [w3 [r | e]];
    [| discriminate].
  destruct (doTask_while pg (maxAttempts s1) 0 r _) as [s4 [[a r'] | e]] eqn:E4;
    [| discriminate].
  pose proof (doTask_while_attempts pg _ _ _ _ _ _ _ _ eq_refl E4) as Ha.
  apply (doTask_while_loop_events pg _ _ _ _ eq_refl) in E4.
  destruct E4 as [Hm4 [new4 [Ht4 Hl4]]]. simpl in Hm4, Ht4.
  apply loop_events_not_closing in Hl4.
  simpl fst in H. simpl snd in H. rewrite doTask_finish_eq in H.
  inversion H; subst s' t. clear H.
  exists (new1 ++ [EvLog (LogTaskStarted task); EvSend (TextMessage task)] ++ new4), a.
  split; [| split].
  - unfold finished. rewrite Hm4, Hm1.
    destruct (a =? maxAttempts s); simpl; rewrite Ht4, Ht1, <- !app_assoc; simpl;
      rewrite <- ?app_assoc; reflexivity.
  - rewrite <- Hm1. lia.
  - apply Forall_app. split; [exact Hc1 |].
    apply Forall_app. split; [| exact Hl4].
    repeat constructor; simpl; auto.
Qed.

Lemma callFunction_unknown (pg : Page) (fn : string) (params : value) (w : W) :
  recognized fn = false -> callFunction pg fn params w = (w, Ok function_not_found).
Proof.
  unfold recognized, action_names, callFunction. simpl existsb. intros H.
  repeat (apply orb_false_elim in H; destruct H as [-> H]). reflexivity.
Qed.

(** X13. A request for an action that the dispatcher does not know: the
    browser is not touched, the model is sent [{ success: false, message:
    "Function not found" }] as the result of that action, and the batch goes
    on with the reply of the model. *)
Theorem unknown_action_is_answered_not_found
    (pg : Page) (call : FunctionCall) (rest : list FunctionCall)
    (functionName : string) (functionParams : list (string * value))
    (response reply : GenerateContentResponse) (s : Agent) (w : W) :
  well_formed_call call = Some (functionName, functionParams) ->
  recognized functionName = false ->
  chat_sendMessage (FunctionResponseMessage functionName function_not_found) (world s) =
    (w, Ok reply) ->
  for_calls pg (call :: rest) response s =
  for_calls pg rest reply
    (set_world w
       (add_event (EvSend (FunctionResponseMessage functionName function_not_found))
          (add_event (EvLog (LogFunctionResult functionName function_not_found))
             (add_event (EvLog (LogFunctionCall functionName (VObj functionParams))) s)))).
Proof.
  intros Hw Hr Hc. cbn [for_calls]. rewrite Hw.
  unfold bind at 1, attempt_call, try_catch. rewrite dispatch_eq. cbv zeta.
  rewrite (callFunction_unknown pg functionName _ _ Hr), Hc. reflexivity.
Qed.

Lemma sendMessage_returns (m : message) (s : Agent) :
  chat_always_replies (host := host) ->
  exists s' r, sendMessage m s = (s', Ok r).
Proof.
  intros Hchat. unfold sendMessage, bind, emit, modify, in_world. cbv beta iota.
  simpl world. destruct (Hchat m (world s)) as [w' [r ->]]. eauto.
Qed.

Lemma for_calls_returns (pg : Page) (batch : list FunctionCall) :
  chat_always_replies (host := host) ->
  forall (r : GenerateContentResponse) (s : Agent),
  exists s' r', for_calls pg batch r s = (s', Ok r').
Proof.
  intros Hchat. induction batch as [| call rest IH]; intros r s; simpl.
  - unfold ret. eauto.
  - destruct (well_formed_call call) as [[fn ps] |].
    + unfold bind at 1, attempt_call, try_catch. rewrite dispatch_eq. cbv zeta.
      destruct (callFunction_object_returns pg fn ps (world s)) as [w2 [res [b [-> _]]]].
      destruct (Hchat (FunctionResponseMessage fn res) w2) as [w4 [r1 ->]].
      apply IH.
    + unfold bind, log, emit, modify, ret. cbv beta iota. eauto.
Qed.

Lemma while_body_returns (pg : Page) (k : Z) (r : GenerateContentResponse) (s : Agent) :
  chat_always_replies (host := host) ->
  exists s' x, while_body pg k r s = (s', Ok x).
Proof.
  intros Hchat. rewrite while_body_eq. unfold process_reply.
  destruct (functionCalls r) as [[| call rest] |].
  - unfold bind, log, emit, modify, ret. cbv beta iota. eauto.
  - unfold bind at 1 2. unfold log, emit, modify. cbv beta iota.
    match goal with |- context [for_calls pg ?b r ?st] =>
      destruct (for_calls_returns pg b Hchat r st) as [s1 [r1 ->]] end.
    unfold ret. eauto.
  - unfold bind, log, emit, modify, ret. cbv beta iota. eauto.
Qed.

Lemma doTask_while_returns (pg : Page) (N : Z) (n : nat) :
  chat_always_replies (host := host) ->
  forall (k : Z) (r : GenerateContentResponse) (s : Agent),
  n = Z.to_nat (N - k) ->
  exists s' x, doTask_while pg N k r s = (s', Ok x).
Proof.
  intros Hchat. induction n as [| n IH]; intros k r s Hn;
    rewrite doTask_while_eq; destruct (Z.ltb_spec k N); try lia; eauto.
  destruct (while_body_returns pg k r s Hchat) as [s1 [[| r1] ->]]; eauto.
  apply IH. lia.
Qed.

(** X15. With a page at hand and a chat session that answers every
    message, [doTask] returns: nothing that goes wrong in the browser, in
    any action, makes it throw. *)
Theorem doTask_returns_when_the_chat_answers
    (task : string) (s s1 : Agent) (pg : Page) :
  chat_always_replies (host := host) ->
  ensure_page s = (s1, Ok pg) ->
  exists s' t, doTask task s = (s', Ok t).
Proof.
  intros Hchat He. rewrite doTask_eq, He. cbv zeta. simpl world.
  destruct (Hchat (TextMessage task) (world s1)) as [w3 [r ->]].
  match goal with |- context [doTask_while pg ?N 0 r ?st] =>
    destruct (doTask_while_returns pg N _ Hchat 0 r st eq_refl) as [s4 [x ->]] end.
  rewrite doTask_finish_eq. eauto.
Qed.

End Protocol.

(** * Turns of one request each *)

Lemma scripted_callFunction (pg : nat) (fn : string) (fields : list (string * value))
    (w : Script) :
  exists result, callFunction (host := scripted_host) pg fn (VObj fields) w = (w, Ok result).
Proof.
  unfold callFunction.
  repeat match goal with
         | |- context [if String.eqb fn ?n then _ else _] => destruct (String.eqb fn n)
         end;
    eexists; reflexivity.
Qed.

Lemma scripted_single_request_body
    (pg : nat) (k : Z) (r r1 : GenerateContentResponse) (rest : Script)
    (s : @ScraperAgent Script nat nat) :
  single_request r ->
  world s = Ok r1 :: rest ->
  exists s1,
    while_body (host := scripted_host) pg k r s = (s1, Ok (Continue r1)) /\
    world s1 = rest.
Proof.
  intros [call [Hf Hw]] Hws.
  destruct (well_formed_call call) as [[fn ps] |] eqn:Hwf; [| congruence].
  rewrite while_body_eq. unfold process_reply. rewrite Hf.
  unfold bind at 1 2. unfold log, emit, modify. cbn [for_calls]. rewrite Hwf.
  unfold bind at 1, attempt_call, try_catch. rewrite dispatch_eq. cbv zeta.
  simpl world. rewrite world_commentary_logged. simpl world.
  destruct (scripted_callFunction pg fn ps (world s)) as [result ->].
  rewrite Hws. eexists. split; reflexivity.
Qed.

Lemma scripted_turns (pg : nat) (N : Z) (f : GenerateContentResponse) :
  no_calls f ->
  forall (turns : list GenerateContentResponse) (r : GenerateContentResponse) (k : Z)
         (s : @ScraperAgent Script nat nat),
  Forall single_request (r :: turns) ->
  world s = map Ok (turns ++ [f]) ->
  k + Z.of_nat (S (List.length turns)) <= N ->
  exists s',
    doTask_while (host := scripted_host) pg N k r s =
    (s', Ok (k + Z.of_nat (S (List.length turns)), f)) /\
    maxAttempts s' = maxAttempts s.
Proof.
  intros Hf. induction turns as [| r1 turns IH]; intros r k s Hall Hw Hk;
    inversion Hall as [| ? ? Hr Hrest]; subst.
  - simpl in Hw.
    destruct (scripted_single_request_body pg k r f [] s Hr Hw) as [s1 [Hb _]].
    pose proof (while_body_trace _ _ _ _ _ _ Hb) as [Hm1 _].
    rewrite doTask_while_eq, Hb. destruct (Z.ltb_spec k N); [| simpl in Hk; lia].
    replace (k + Z.of_nat 1) with (k + 1) by lia.
    rewrite doTask_while_eq. destruct (k + 1 <? N).
    + rewrite (while_body_no_calls _ _ _ _ Hf). eexists. split; [reflexivity |].
      simpl. rewrite maxAttempts_commentary_logged. exact Hm1.
    + eexists. split; [reflexivity | exact Hm1].
  - simpl in Hw.
    destruct (scripted_single_request_body pg k r r1 _ s Hr Hw) as [s1 [Hb Hw1]].
    pose proof (while_body_trace _ _ _ _ _ _ Hb) as [Hm1 _].
    rewrite doTask_while_eq, Hb. destruct (Z.ltb_spec k N); [| simpl in Hk; lia].
    destruct (IH r1 (k + 1) s1 Hrest Hw1) as [s' [E Hm]]; [simpl in *; lia |].
    exists s'. rewrite E. split; [| congruence].
    do 2 f_equal. f_equal. simpl List.length. lia.
Qed.

(** X14. The model asks for one action per turn, the browser carries each
    one out, and a last turn asks for nothing: within the budget, [doTask]
    returns the text of the last turn, and the attempts counter at exit is
    the number of turns that asked for an action. *)
Theorem attempts_count_the_turns_with_a_request
    (task : string) (pg : nat) (N : Z)
    (turns : list GenerateContentResponse) (f : GenerateContentResponse) :
  Forall single_request turns ->
  no_calls f ->
  Z.of_nat (List.length turns) <= N ->
  exists s',
    doTask (host := scripted_host) task
      (set_maxAttempts N (new_ScraperAgent (map Ok (turns ++ [f])) (Some pg))) =
    (s', Ok (text f)) /\
    attempts_at_exit (trace s') = Some (Z.of_nat (List.length turns)).
Proof.
  intros Hall Hf HN. rewrite doTask_eq.
  rewrite (ensure_page_present (host := scripted_host)
             (set_maxAttempts N (new_ScraperAgent (map Ok (turns ++ [f])) (Some pg)))
             pg eq_refl).
  cbv zeta. simpl world.
  destruct turns as [| r turns]; simpl map;
    change (@chat_sendMessage Script nat nat scripted_host) with scripted_sendMessage;
    cbn [scripted_sendMessage]; simpl maxAttempts.
  - rewrite doTask_while_eq. destruct (0 <? N).
    + rewrite (while_body_no_calls _ _ _ _ Hf). simpl fst. simpl snd.
      rewrite doTask_finish_eq. eexists. split; [reflexivity |].
      apply attempts_at_exit_finished.
    + simpl fst. simpl snd. rewrite doTask_finish_eq. eexists. split; [reflexivity |].
      apply attempts_at_exit_finished.
  - match goal with |- context [doTask_while ?p N 0 r ?st] =>
      destruct (scripted_turns p N f Hf turns r 0 st Hall eq_refl) as [s' [E _]];
        [simpl in *; lia |]
    end.
    rewrite E. simpl fst. simpl snd. rewrite doTask_finish_eq.
    eexists. split; [reflexivity |].
    rewrite attempts_at_exit_finished. f_equal.
Qed.

(** * The further properties on the scripted and the staged hosts *)

Lemma callFunction_nullish_parameters_throw_witness :
  exists key e,
    get_prop VUndefined key = Throw e /\
    callFunction (host := scripted_host) 7%nat "click" VUndefined [] = ([], Throw e).
Proof.
  apply (callFunction_nullish_parameters_throw (host := scripted_host)
           7%nat "click" VUndefined []); reflexivity.
Defined.

Lemma callFunction_parameterless_actions_ignore_parameters_witness :
  callFunction (host := scripted_host) 7%nat "getHtml" VNull [] =
  callFunction (host := scripted_host) 7%nat "getHtml" VUndefined [] /\
  returns_result (callFunction (host := scripted_host) 7%nat "getHtml" VNull []).
Proof.
  apply (callFunction_parameterless_actions_ignore_parameters (host := scripted_host)
           7%nat "getHtml" VNull []).
  left. reflexivity.
Defined.

Lemma failed_action_carries_error_except_screenshot_witness :
  (exists e,
     field "error"
       (VObj [("success", VBool false);
              ("error", VStr "Error: Target page, context or browser has been closed")]) =
     Some (VStr e) /\
     action_raises (host := staged_host page_closed click_then_done)
       7%nat "click" [("selector", VStr "#go")] tt tt e) /\
  field "error" (VObj [("success", VBool false)]) = None.
Proof.
  split.
  - apply (failed_action_carries_error_except_screenshot
             (host := staged_host page_closed click_then_done)
             7%nat "click" [("selector", VStr "#go")] tt tt
             (VObj [("success", VBool false);
                    ("error",
                     VStr "Error: Target page, context or browser has been closed")]));
      [reflexivity | reflexivity | discriminate | reflexivity].
  - apply (failed_action_carries_error_except_screenshot
             (host := staged_host page_closed click_then_done)
             7%nat "screenshot" [("path", VStr "page.png")] tt tt
             (VObj [("success", VBool false)]));
      reflexivity.
Defined.

Lemma callGoto_succeeds_when_network_stays_busy_witness :
  callFunction (host := staged_host busy_network click_then_done) 7%nat "goto"
    (VObj [("url", VStr "https://example.com")]) tt =
  (tt, Ok (VObj [("success", VBool true); ("html", VStr "<html></html>")])).
Proof.
  apply (callGoto_succeeds_when_network_stays_busy
           (host := staged_host busy_network click_then_done)
           7%nat (VStr "https://example.com") tt tt tt tt tt
           "TimeoutError: page.waitForLoadState: Timeout 30000ms exceeded."
           "<html></html>");
    reflexivity.
Defined.

Lemma waitForNetworkIdle_throws_only_from_waitForTimeout_witness :
  exists p w1 e1,
    Some 7%nat = Some p /\
    page_waitForLoadState (Host := staged_host page_closed click_then_done)
      p "networkidle" 30000 tt = (w1, Throw e1) /\
    page_waitForTimeout (Host := staged_host page_closed click_then_done)
      p 30000 w1 =
    (tt, Throw "Error: Target page, context or browser has been closed"%string).
Proof.
  apply (waitForNetworkIdle_throws_only_from_waitForTimeout
           (host := staged_host page_closed click_then_done)
           (Some 7%nat) 30000 tt tt
           "Error: Target page, context or browser has been closed").
  reflexivity.
Defined.

Lemma doTask_without_page_leaves_browser_to_cleanup_witness :
  let host := staged_host no_new_page click_then_done in
  let s' := fst (doTask (host := host) "hi" (new_ScraperAgent tt None)) in
  trace s' = [] \/
  exists b,
    trace s' = [] ++ [EvLaunch b] /\
    browser s' = Some b /\
    closed (trace (fst (cleanup (host := host) s'))) = closed (trace s') ++ [b].
Proof.
  cbv zeta.
  apply (doTask_without_page_leaves_browser_to_cleanup
           (host := staged_host no_new_page click_then_done)
           "hi" (new_ScraperAgent tt None)
           (fst (doTask (host := staged_host no_new_page click_then_done) "hi"
                   (new_ScraperAgent tt None)))
           "Error: browser.newPage: Target closed");
    reflexivity.
Defined.

Lemma agent_with_page_never_launches_witness :
  let s := fst (doTask "hi" (new_ScraperAgent [Ok (text_reply "Hello")] None)) in
  launched (trace s) = [1%nat] /\
  closed (trace (calls [CallCleanup; CallDoTask "again"] s)) = [1%nat] /\
  page (calls [CallCleanup; CallDoTask "again"] s) <> None /\
  launched (trace (calls [CallCleanup; CallDoTask "again"] s)) = launched (trace s).
Proof.
  cbv zeta. split; [reflexivity |]. split; [reflexivity |].
  apply (agent_with_page_never_launches (host := scripted_host)
           (fst (doTask "hi" (new_ScraperAgent [Ok (text_reply "Hello")] None)))
           [CallCleanup; CallDoTask "again"]).
  vm_compute. discriminate.
Defined.

Lemma cleanup_twice_closes_once_witness :
  let s := fst (doTask "hi" (new_ScraperAgent [Ok (text_reply "Hello")] None)) in
  browser (fst (cleanup s)) = None /\
  cleanup (fst (cleanup s)) = (fst (cleanup s), Ok tt).
Proof.
  cbv zeta.
  apply (cleanup_twice_closes_once (host := scripted_host)
           (fst (doTask "hi" (new_ScraperAgent [Ok (text_reply "Hello")] None)))).
  vm_compute. reflexivity.
Defined.

Lemma doTask_reports_attempts_within_budget_witness :
  let s := new_ScraperAgent navigate_then_done (Some 7%nat) in
  exists (new : list (@event nat)) (a : Z),
    trace (fst (doTask "navigate to example.com" s)) =
      trace s ++ new ++
      (if a =? 50 then [EvLog (LogMaxAttemptsReached 50)] else []) ++
      [EvLog (LogTaskCompleted a 50)] /\
    0 <= a <= Z.max 0 50 /\
    Forall (fun e => ~ closing_entry e) new.
Proof.
  cbv zeta.
  apply (doTask_reports_attempts_within_budget (host := scripted_host)
           "navigate to example.com"
           (new_ScraperAgent navigate_then_done (Some 7%nat))
           (fst (doTask "navigate to example.com"
                   (new_ScraperAgent navigate_then_done (Some 7%nat))))
           (Some "Done."%string)).
  vm_compute. reflexivity.
Defined.

Lemma unknown_action_is_answered_not_found_witness :
  let navigate := {| call_name := Some "navigate"%string;
                     call_args := Some [("url", VStr "https://example.com")] |} in
  exists s',
    for_calls 7%nat [navigate] (calls_reply [navigate])
      (new_ScraperAgent [Ok (text_reply "Unknown.")] (Some 7%nat)) =
    (s', Ok (text_reply "Unknown.")) /\
    sent (trace s') = [FunctionResponseMessage "navigate" function_not_found].
Proof.
  cbv zeta.
  pose proof (unknown_action_is_answered_not_found (host := scripted_host)
             7%nat
             {| call_name := Some "navigate"%string;
                call_args := Some [("url", VStr "https://example.com")] |}
             [] "navigate" [("url", VStr "https://example.com")]
             (calls_reply [{| call_name := Some "navigate"%string;
                              call_args := Some [("url", VStr "https://example.com")] |}])
             (text_reply "Unknown.")
             (new_ScraperAgent [Ok (text_reply "Unknown.")] (Some 7%nat))
             [] eq_refl eq_refl eq_refl) as E.
  eexists. split; [exact E | reflexivity].
Defined.

Lemma attempts_count_the_turns_with_a_request_witness :
  exists s',
    doTask (host := scripted_host) "shop"
      (set_maxAttempts 2
         (new_ScraperAgent
            (map Ok ([calls_reply [goto_example]; calls_reply [click_go]] ++
                     [text_reply "Done."]))
            (Some 7%nat))) =
    (s', Ok (Some "Done."%string)) /\
    attempts_at_exit (trace s') = Some 2.
Proof.
  apply (attempts_count_the_turns_with_a_request "shop" 7%nat 2
           [calls_reply [goto_example]; calls_reply [click_go]] (text_reply "Done.")).
  - repeat constructor.
    + exists goto_example. split; [reflexivity | discriminate].
    + exists click_go. split; [reflexivity | discriminate].
  - left. reflexivity.
  - simpl. lia.
Defined.

Lemma doTask_returns_when_the_chat_answers_witness :
  let host := staged_host page_closed click_then_done in
  exists s' t,
    doTask (host := host) "click it" (new_ScraperAgent tt (Some 7%nat)) = (s', Ok t).
Proof.
  cbv zeta.
  apply (doTask_returns_when_the_chat_answers
           (host := staged_host page_closed click_then_done)
           "click it" (new_ScraperAgent tt (Some 7%nat))
           (new_ScraperAgent tt (Some 7%nat)) 7%nat).
  - intros m w. exists tt, (click_then_done m). destruct w. reflexivity.
  - reflexivity.
Defined.

(** * The transcript *)

Lemma string_append_assoc (a b c : string) :
  ((a ++ b) ++ c)%string = (a ++ b ++ c)%string.
Proof. induction a as [| x a IH]; simpl; [reflexivity | rewrite IH; reflexivity]. Qed.

Lemma string_append_nil_r (a : string) : (a ++ "")%string = a.
Proof. induction a as [| x a IH]; simpl; [reflexivity | rewrite IH; reflexivity]. Qed.

Lemma write_appends (c : Transcript.logging) (k : Transcript.Sink) :
  if Transcript.skipped c then Transcript.write c k = k
  else
    exists entry,
      Transcript.ends_with_empty_line entry /\
      Transcript.write c k =
      {| Transcript.console :=
           Transcript.console k ++ [("[Agent] " ++ Transcript.console_message c)%string];
         Transcript.output_md := (Transcript.output_md k ++ entry)%string |}.
Proof.
  destruct c as [message md | consoleMsg content | message | fn j j2 | txt]; simpl.
  - unfold Transcript.log. destruct (all_white_space message); [reflexivity |].
    eexists. split; [eexists; reflexivity | reflexivity].
  - eexists. split; [eexists; reflexivity | reflexivity].
  - exists ("> **System**: " ++ message ++ line_feed ++ line_feed)%string.
    split; [| reflexivity].
    exists ("> **System**: " ++ message)%string. rewrite string_append_assoc. reflexivity.
  - unfold Transcript.logFunctionCall. cbv zeta.
    eexists. split; [eexists; reflexivity | reflexivity].
  - unfold Transcript.logAgentResponse. destruct (all_white_space txt); [reflexivity |].
    eexists. split; [| reflexivity].
    exists ("## " ++ Transcript.robot_face ++ " Agent Response" ++ line_feed ++ line_feed ++
            txt)%string.
    rewrite !string_append_assoc. reflexivity.
Qed.

(** Blank is what [trim] finds blank: a message made of a NO-BREAK SPACE, a
    LINE SEPARATOR and a byte order mark is skipped, and the letter "a"
    after a space is not. *)
Example unicode_blank_message_is_skipped (k : Transcript.Sink) :
  let nbsp := String (ascii_of_nat 194) (String (ascii_of_nat 160) EmptyString) in
  let line_separator :=
    String (ascii_of_nat 226) (String (ascii_of_nat 128)
      (String (ascii_of_nat 168) EmptyString)) in
  let bom :=
    String (ascii_of_nat 239) (String (ascii_of_nat 187)
      (String (ascii_of_nat 191) EmptyString)) in
  Transcript.write (Transcript.Log (nbsp ++ line_separator ++ bom)%string None) k = k /\
  Transcript.write (Transcript.LogAgentResponse (nbsp ++ " ")%string) k = k /\
  Transcript.skipped (Transcript.Log " a" None) = false.
Proof. cbv zeta. split; [reflexivity |]. split; reflexivity. Qed.

(** X16. From the construction of the agent on, which writes the heading,
    the logging methods only add to output.md and to the console: whatever
    is logged, the file is the heading followed by one entry, ending with
    an empty line, for every call, and the console has one line
    "[Agent] <message>" more for every call; but for the [log] and
    [logAgentResponse] of an empty or blank message, which leave no trace
    at all. *)
Theorem transcript_is_heading_then_entries
    (cs : list Transcript.logging) (k : Transcript.Sink) :
  exists entries : list string,
    Forall Transcript.ends_with_empty_line entries /\
    List.length entries =
      List.length (filter (fun c => negb (Transcript.skipped c)) cs) /\
    fold_left (fun st c => Transcript.write c st) cs (Transcript.prepareMd k) =
    {| Transcript.console :=
         Transcript.console k ++
         map (fun c => ("[Agent] " ++ Transcript.console_message c)%string)
           (filter (fun c => negb (Transcript.skipped c)) cs);
       Transcript.output_md := (Transcript.header ++ String.concat "" entries)%string |}.
Proof.
  assert (G : forall (cs : list Transcript.logging) (st : Transcript.Sink),
             exists entries : list string,
               Forall Transcript.ends_with_empty_line entries /\
               List.length entries =
                 List.length (filter (fun c => negb (Transcript.skipped c)) cs) /\
               fold_left (fun st c => Transcript.write c st) cs st =
               {| Transcript.console :=
                    Transcript.console st ++
                    map (fun c => ("[Agent] " ++ Transcript.console_message c)%string)
                      (filter (fun c => negb (Transcript.skipped c)) cs);
                  Transcript.output_md :=
                    (Transcript.output_md st ++ String.concat "" entries)%string |}).
  { clear. induction cs as [| c cs IH]; intros st; simpl.
    - exists []. split; [constructor |]. split; [reflexivity |]. simpl.
      rewrite app_nil_r, string_append_nil_r. destruct st; reflexivity.
    - pose proof (write_appends c st) as Hw. destruct (Transcript.skipped c); simpl.
      + rewrite Hw. apply IH.
      + destruct Hw as [entry [He ->]].
        destruct (IH {| Transcript.console :=
                          Transcript.console st ++
                          [("[Agent] " ++ Transcript.console_message c)%string];
                        Transcript.output_md := (Transcript.output_md st ++ entry)%string |})
          as [entries [Hall [Hlen ->]]].
        exists (entry :: entries). split; [constructor; assumption |].
        split; [simpl; rewrite Hlen; reflexivity |]. simpl.
        rewrite <- app_assoc. simpl. f_equal.
        destruct entries as [| e es]; simpl.
        * rewrite string_append_nil_r. reflexivity.
        * rewrite string_append_assoc. reflexivity. }
  apply (G cs (Transcript.prepareMd k)).
Qed.

(** * The order of a batch *)

Section Batch.

Context {W Page Browser : Type} {host : Host W Page Browser}.

Local Abbreviation Agent := (@ScraperAgent W Page Browser).
Local Abbreviation Event := (@event Browser).

Lemma dispatched_names_app (a b : list message) :
  dispatched_names (a ++ b) = dispatched_names a ++ dispatched_names b.
Proof.
  induction a as [| m a IH]; simpl; [reflexivity |].
  destruct m; simpl; rewrite ?IH; reflexivity.
Qed.

(** One request: its result is sent under its name, once, whether the
    chat session takes it or not. *)
Lemma attempt_call_sends_result (pg : Page) (fn : string) (ps : list (string * value))
    (s : Agent) :
  exists new,
    trace (fst (attempt_call pg fn ps s)) = trace s ++ new /\
    dispatched_names (sent new) = [fn].
Proof.
  unfold attempt_call, try_catch. rewrite dispatch_eq. cbv zeta.
  destruct (callFunction_object_returns pg fn ps (world s)) as [w2 [result [b [-> _]]]].
  destruct (chat_sendMessage (FunctionResponseMessage fn result) w2) as [w4 [r | e]].
  - eexists. split; [simpl; rewrite <- !app_assoc; reflexivity | reflexivity].
  - unfold report_error, bind, log, sendMessage, emit, modify, in_world, bind.
    cbv beta iota zeta. simpl world.
    destruct (chat_sendMessage (TextMessage (error_message fn e)) w4) as [w5 o].
    eexists. split; [simpl; rewrite <- !app_assoc; reflexivity | reflexivity].
Qed.

(** X17. The requests of a batch are dispatched one by one in the order of
    the batch, each exactly once, up to the first request that lacks a name
    or its arguments: when the batch is done, the results sent carry
    exactly the names of those requests, in order; when an exception ends
    it, those of a first part of them. *)
Theorem batch_is_dispatched_in_order
    (pg : Page) (batch : list FunctionCall) (r : GenerateContentResponse) (s : Agent) :
  exists new : list Event,
    trace (fst (for_calls pg batch r s)) = trace s ++ new /\
    match snd (for_calls pg batch r s) with
    | Ok _ => dispatched_names (sent new) = dispatchable batch
    | Throw _ => exists rest, dispatchable batch = dispatched_names (sent new) ++ rest
    end.
Proof.
  revert r s. induction batch as [| call rest IH]; intros r s; simpl.
  - exists []. rewrite app_nil_r. auto.
  - destruct (well_formed_call call) as [[fn ps] |].
    + destruct (attempt_call_sends_result pg fn ps s) as [new1 [Ht1 Hn1]].
      unfold bind. destruct (attempt_call pg fn ps s) as [s1 [r1 | e]]; simpl fst in Ht1.
      * destruct (IH r1 s1) as [new2 [Ht2 Ho]].
        exists (new1 ++ new2). split; [rewrite Ht2, Ht1, app_assoc; reflexivity |].
        rewrite sent_app, dispatched_names_app, Hn1. simpl.
        destruct (snd (for_calls pg rest r1 s1)).
        -- rewrite Ho. reflexivity.
        -- destruct Ho as [rest' ->]. exists rest'. reflexivity.
      * exists new1. split; [exact Ht1 |]. simpl. rewrite Hn1.
        exists (dispatchable rest). reflexivity.
    + exists [EvLog LogInvalidFunctionCall]. split; reflexivity.
Qed.

End Batch.

Lemma main_closes_its_browser_when_the_task_returns_witness :
  closed (trace (fst (main (host := scripted_host) [Ok (text_reply "Done.")]))) = [1%nat] /\
  browser (fst (main (host := scripted_host) [Ok (text_reply "Done.")])) = None.
Proof.
  pose proof (main_closes_its_browser_when_the_task_returns (host := scripted_host)
                [Ok (text_reply "Done.")]) as H.
  assert (Hd : doTask (host := scripted_host) main_task
                 (@new_ScraperAgent Script nat nat [Ok (text_reply "Done.")] None) =
               (fst (doTask (host := scripted_host) main_task
                       (@new_ScraperAgent Script nat nat [Ok (text_reply "Done.")] None)),
                Ok (Some "Done."%string))) by (vm_compute; reflexivity).
  rewrite Hd in H. destruct H as [b [Hl [Hc Hb]]].
  assert (Hl1 : launched (trace (fst (doTask (host := scripted_host) main_task
                                        (@new_ScraperAgent Script nat nat [Ok (text_reply "Done.")] None)))) =
                [1%nat]) by (vm_compute; reflexivity).
  rewrite Hl1 in Hl. inversion Hl; subst b.
  split; [exact Hc | apply Hb; vm_compute; reflexivity].
Defined.
